(** * Scoring engine of the GitHub portfolio analyzer

    A shallow embedding of [ScoringEngine] (src/ai_scoring.py), of the
    extraction layer that feeds it (src/data_extraction.py) and of the
    helpers around it (src/routes.py, src/app.py), with the properties
    its specification states about it.

    The engine is embedded twice.
    - In exact arithmetic: a Python [int] is a [Z] and a number that may
      be a [float] is the rational [Q] it would be if no operation
      rounded; [round(x, 2)] rounds that exact value to the nearest
      multiple of 0.01, ties to even. This idealisation is used for the
      properties that do not depend on how the last bits are rounded:
      bounds, monotonicity, invariance, and the integer parts of the
      sub-scorers.
    - On binary64 numbers ([Module B64]): a [float] is a number of the
      IEEE 754 binary64 format, every operation rounds as the format
      prescribes, [round(x, 2)] goes through the decimal expansion as
      CPython does, and the objects a call can reach are held in a heap.
      It is used where the value reported, bit for bit, or the state of
      the engine is the subject.
    The loops over integers ([doc_step], [language_step],
    [complexity_step], [commit_bonus_of]) are shared by both.

    Other conventions.
    - A dictionary with a fixed set of optional keys is a record of
      [option] fields, [None] being an absent key. For [description] and
      [language], which the code reads with [dict.get(k)], [None] also
      stands for a key bound to Python's [None]; the other fields are read
      with [dict.get(k, default)] and are numbers or sequences whenever
      present.
    - [set()] is a [gset string], the [WEIGHTS] dictionary a [gmap] from
      strings.
    - An operation that can raise ([/], [//], subscripting) returns a
      [PyResult]. *)

From Stdlib Require Import ZArith QArith Qround Qminmax Lia Lqa.
From Stdlib Require Import Floats.SpecFloat.
From stdpp Require Import base option list gmap sets strings.

Local Open Scope Z_scope.

(** ** Python runtime fragments *)

Module Py.

Inductive PyError : Type :=
  | ZeroDivisionError
  | KeyError (key : string).

Inductive PyResult (A : Type) : Type :=
  | Ok (a : A)
  | Raise (e : PyError).
Arguments Ok {A} a.
Arguments Raise {A} e.

Definition bind {A B} (m : PyResult A) (k : A -> PyResult B) : PyResult B :=
  match m with
  | Ok a => k a
  | Raise e => Raise e
  end.

(** [bool(s)] for an optional string: [None] and [""] are falsy. *)
Definition truthy (o : option string) : bool :=
  match o with
  | Some s => negb (String.eqb s EmptyString)
  | None => false
  end.

(** [d[key]]: raises [KeyError] on an absent key. *)
Definition subscript {A} (key : string) (o : option A) : PyResult A :=
  match o with
  | Some a => Ok a
  | None => Raise (KeyError key)
  end.

(** [a / b] on two ints: true division, raising on a zero divisor. *)
Definition truediv (a b : Z) : PyResult Q :=
  if b =? 0 then Raise ZeroDivisionError
  else Ok (inject_Z a / inject_Z b)%Q.

(** [a // b] on two ints: floor division, raising on a zero divisor. *)
Definition floordiv (a b : Z) : PyResult Z :=
  if b =? 0 then Raise ZeroDivisionError
  else Ok (a / b).

(** [min(a, b)]: the first argument unless the second is strictly smaller. *)
Definition min_int (a b : Z) : Z := if b <? a then b else a.
Definition min_num (a b : Q) : Q := if Qle_bool a b then a else b.

(** Rounding of a rational to the nearest integer, ties to even. *)
Definition round_half_even (x : Q) : Z :=
  let f := Qfloor x in
  match (x - inject_Z f ?= 1 # 2)%Q with
  | Lt => f
  | Gt => f + 1
  | Eq => if Z.even f then f else f + 1
  end.

(** [round(x, ndigits)] for [ndigits >= 0]. *)
Definition round (x : Q) (ndigits : nat) : Q :=
  let s := inject_Z (10 ^ Z.of_nat ndigits) in
  (inject_Z (round_half_even (x * s)) / s)%Q.

End Py.
Import Py.

#[global] Instance PyResult_ret : MRet PyResult := @Ok.
#[global] Instance PyResult_bind : MBind PyResult :=
  fun A B k m => bind m k.

(** ** Data model *)

Record RepositoryRecord : Type := {
  description : option string;
  readme_length : option Z;
  language : option string;
  stars : option Z;
  forks : option Z
}.

Record CommitActivityRecord : Type := {
  consistency_score : option Q;
  total_commits : option Z
}.

(** The empty dictionary [{}] read as a commit-activity record. *)
Definition no_commit_activity : CommitActivityRecord :=
  {| consistency_score := None; total_commits := None |}.

Record ProfileData : Type := {
  repositories : option (list RepositoryRecord);
  commit_activity : option CommitActivityRecord
}.

Record ComponentScore : Type := {
  score : Q;
  weight : Q
}.

Record ScoreBreakdown : Type := {
  total_score : Q;
  documentation_score : Q;
  technical_depth_score : Q;
  activity_score : Q;
  score_breakdown : gmap string ComponentScore
}.

(** The engine object; its only attribute is the class-level [WEIGHTS]. *)
Record ScoringEngine : Type := {
  WEIGHTS : gmap string Q
}.

(** [ScoringEngine()] *)
Definition new_engine : ScoringEngine :=
  {| WEIGHTS := {[ "documentation"%string := 0.30%Q;
                   "technical_depth"%string := 0.40%Q;
                   "activity"%string := 0.30%Q ]} |}.

(** ** [_score_documentation] *)

(** One iteration of the loop over the repositories; the state is the pair
    of the local variables [(score, count)]. *)
Definition doc_step (st : Z * Z) (repo : RepositoryRecord) : Z * Z :=
  let '(score, count) := st in
  let readme_length := default 0 (readme_length repo) in
  let has_description := truthy (description repo) in
  let count_score :=
    if 1000 <? readme_length then 100
    else if 500 <? readme_length then 75
    else if 100 <? readme_length then 50
    else 25 in
  let count_score :=
    if has_description then count_score + 10 else count_score in
  (score + min_int 100 count_score, count + 1).

Definition _score_documentation (profile_data : ProfileData) : PyResult Q :=
  let '(score, count) :=
    fold_left doc_step (default [] (repositories profile_data)) (0, 0) in
  if 0 <? count then truediv score count else Ok 0%Q.

(** ** [_score_technical_depth] *)

(** One iteration of the language loop: [languages.add(repo["language"])]
    under the guard [if repo.get("language")]. *)
Definition language_step (languages : gset string) (repo : RepositoryRecord)
  : PyResult (gset string) :=
  if truthy (language repo) then
    l ← subscript "language" (language repo);
    mret ({[ l ]} ∪ languages)
  else mret languages.

(** One iteration of the complexity loop; the state is the local variable
    [complexity_score]. *)
Definition complexity_step (complexity_score : Z) (repo : RepositoryRecord)
  : Z :=
  let stars := default 0 (stars repo) in
  let forks := default 0 (forks repo) in
  let complexity_score :=
    if 1000 <? stars then complexity_score + 30
    else if 100 <? stars then complexity_score + 20
    else if 10 <? stars then complexity_score + 10
    else complexity_score + 5 in
  if 100 <? forks then complexity_score + 20
  else if 10 <? forks then complexity_score + 10
  else complexity_score.

(** A [for] loop whose body can raise. *)
Fixpoint for_each {S A} (body : S -> A -> PyResult S) (xs : list A) (st : S)
  : PyResult S :=
  match xs with
  | [] => mret st
  | x :: xs' => st' ← body st x; for_each body xs' st'
  end.

Definition _score_technical_depth (profile_data : ProfileData)
  : PyResult Q :=
  let repos := default [] (repositories profile_data) in
  languages ← for_each language_step repos ∅;
  let language_score := min_int 100 (Z.of_nat (size languages) * 20) in
  let complexity_score := fold_left complexity_step repos 0 in
  q ← floordiv complexity_score (Z.max 1 (Z.of_nat (length repos)));
  let complexity_score := min_int 100 q in
  mret (inject_Z language_score * 0.4 + inject_Z complexity_score * 0.6)%Q.

(** ** [_score_activity] *)

Definition commit_bonus_of (total_commits : Z) : Z :=
  if 1000 <? total_commits then 40
  else if 500 <? total_commits then 30
  else if 100 <? total_commits then 20
  else 10.

Definition _score_activity (profile_data : ProfileData) : PyResult Q :=
  let commit_activity :=
    default no_commit_activity (commit_activity profile_data) in
  let consistency := default 0%Q (consistency_score commit_activity) in
  let total_commits := default 0 (total_commits commit_activity) in
  let commit_bonus := commit_bonus_of total_commits in
  let activity_score := (consistency * 0.7 + inject_Z commit_bonus)%Q in
  mret (min_num 100 activity_score).

(** ** [calculate_score] *)

Definition calculate_score (self : ScoringEngine) (profile_data : ProfileData)
  : PyResult ScoreBreakdown :=
  doc_score ← _score_documentation profile_data;
  tech_score ← _score_technical_depth profile_data;
  activity_score ← _score_activity profile_data;
  w_doc ← subscript "documentation" (WEIGHTS self !! "documentation"%string);
  w_tech ← subscript "technical_depth"
             (WEIGHTS self !! "technical_depth"%string);
  w_act ← subscript "activity" (WEIGHTS self !! "activity"%string);
  let total_score :=
    (doc_score * w_doc + tech_score * w_tech + activity_score * w_act)%Q in
  mret {|
    total_score := round total_score 2;
    documentation_score := round doc_score 2;
    technical_depth_score := round tech_score 2;
    activity_score := round activity_score 2;
    score_breakdown :=
      {[ "documentation"%string :=
           {| score := round doc_score 2; weight := w_doc |};
         "technical_depth"%string :=
           {| score := round tech_score 2; weight := w_tech |};
         "activity"%string :=
           {| score := round activity_score 2; weight := w_act |} ]}
  |}.

(** * The specification's wording

    The definitions of this module follow the sentences of the
    specification, not the control flow of the code; the theorems below
    compare them with the embedding. *)

Module Spec.

Definition Zsum (l : list Z) : Z := foldr Z.add 0 l.

(** Arithmetic mean of a non-empty list of integers. *)
Definition mean (l : list Z) : Q :=
  (inject_Z (Zsum l) / inject_Z (Z.of_nat (length l)))%Q.

(** README tier: > 1000 is 100, > 500 is 75, > 100 is 50, otherwise 25. *)
Definition readme_base (readme_length : Z) : Z :=
  if bool_decide (readme_length > 1000) then 100
  else if bool_decide (readme_length > 500) then 75
  else if bool_decide (readme_length > 100) then 50
  else 25.

Definition has_nonempty (o : option string) : bool :=
  match o with
  | Some s => bool_decide (s ≠ EmptyString)
  | None => false
  end.

(** Base plus the flat 10-point description bonus, clamped at 100. *)
Definition repository_documentation (repo : RepositoryRecord) : Z :=
  Z.min 100
    (readme_base (default 0 (readme_length repo))
     + (if has_nonempty (description repo) then 10 else 0)).

(** Mean of the clamped values; 0 with zero repositories. *)
Definition score_documentation (repos : list RepositoryRecord) : Q :=
  match repos with
  | [] => 0%Q
  | _ :: _ => mean (map repository_documentation repos)
  end.

(** Distinct non-empty [language] values across all repositories. *)
Definition distinct_languages (repos : list RepositoryRecord) : list string :=
  remove_dups (filter (fun l => l ≠ EmptyString) (omap language repos)).

(** Number of distinct languages times 20, capped at 100. *)
Definition language_score (repos : list RepositoryRecord) : Z :=
  Z.min 100 (20 * Z.of_nat (length (distinct_languages repos))).

(** Star tier: > 1000 is 30, > 100 is 20, > 10 is 10, else 5. *)
Definition star_tier (stars : Z) : Z :=
  if bool_decide (stars > 1000) then 30
  else if bool_decide (stars > 100) then 20
  else if bool_decide (stars > 10) then 10
  else 5.

(** Fork tier: > 100 is 20, > 10 is 10, else 0. *)
Definition fork_tier (forks : Z) : Z :=
  if bool_decide (forks > 100) then 20
  else if bool_decide (forks > 10) then 10
  else 0.

Definition repository_complexity (repo : RepositoryRecord) : Z :=
  star_tier (default 0 (stars repo)) + fork_tier (default 0 (forks repo)).

(** Sum of the contributions, floor-divided by the number of repositories
    (at least 1), capped at 100. *)
Definition complexity_score (repos : list RepositoryRecord) : Z :=
  Z.min 100
    (Zsum (map repository_complexity repos)
     `div` Z.max 1 (Z.of_nat (length repos))).

Definition score_technical_depth (repos : list RepositoryRecord) : Q :=
  (0.4 * inject_Z (language_score repos)
   + 0.6 * inject_Z (complexity_score repos))%Q.

(** The same with real division in place of floor division, for
    comparison. *)
Definition complexity_score_real_division (repos : list RepositoryRecord)
  : Q :=
  let q := (inject_Z (Zsum (map repository_complexity repos))
            / inject_Z (Z.max 1 (Z.of_nat (length repos))))%Q in
  if Qle_bool 100 q then 100%Q else q.

(** A structurally valid input: non-negative counts and a consistency
    score within [0, 100]. *)
Definition valid_repository (repo : RepositoryRecord) : bool :=
  (0 <=? default 0 (readme_length repo))
  && (0 <=? default 0 (stars repo))
  && (0 <=? default 0 (forks repo)).

Definition valid_profile (profile_data : ProfileData) : bool :=
  let ca := default no_commit_activity (commit_activity profile_data) in
  forallb valid_repository (default [] (repositories profile_data))
  && Qle_bool 0 (default 0%Q (consistency_score ca))
  && Qle_bool (default 0%Q (consistency_score ca)) 100
  && (0 <=? default 0 (total_commits ca)).

(** Every optional field replaced by its default. *)
Definition repository_with_defaults (repo : RepositoryRecord)
  : RepositoryRecord :=
  {| description := Some (default EmptyString (description repo));
     readme_length := Some (default 0 (readme_length repo));
     language := Some (default EmptyString (language repo));
     stars := Some (default 0 (stars repo));
     forks := Some (default 0 (forks repo)) |}.

Definition profile_with_defaults (profile_data : ProfileData) : ProfileData :=
  let ca := default no_commit_activity (commit_activity profile_data) in
  {| repositories :=
       Some (map repository_with_defaults
                 (default [] (repositories profile_data)));
     commit_activity :=
       Some {| consistency_score :=
                 Some (default 0%Q (consistency_score ca));
               total_commits := Some (default 0 (total_commits ca)) |} |}.

End Spec.

(** * Auxiliary definitions *)

(** The languages the loop adds to its set, in order. *)
Definition added_languages (repos : list RepositoryRecord) : list string :=
  filter (fun l => l ≠ EmptyString) (omap language repos).

(** The value [_score_activity] computes, as a function of the two fields
    it reads. *)
Definition activity_value (profile_data : ProfileData) : Q :=
  let ca := default no_commit_activity (commit_activity profile_data) in
  min_num 100
    (default 0%Q (consistency_score ca) * 0.7
     + inject_Z (commit_bonus_of (default 0%Z (total_commits ca))))%Q.

(** The part of [calculate_score] after the three sub-scorers returned. *)
Definition assemble (self : ScoringEngine) (doc_score tech_score act : Q)
  : PyResult ScoreBreakdown :=
  w_doc ← subscript "documentation" (WEIGHTS self !! "documentation"%string);
  w_tech ← subscript "technical_depth"
             (WEIGHTS self !! "technical_depth"%string);
  w_act ← subscript "activity" (WEIGHTS self !! "activity"%string);
  mret {|
    total_score :=
      round (doc_score * w_doc + tech_score * w_tech + act * w_act)%Q 2;
    documentation_score := round doc_score 2;
    technical_depth_score := round tech_score 2;
    activity_score := round act 2;
    score_breakdown :=
      {[ "documentation"%string :=
           {| score := round doc_score 2; weight := w_doc |};
         "technical_depth"%string :=
           {| score := round tech_score 2; weight := w_tech |};
         "activity"%string :=
           {| score := round act 2; weight := w_act |} ]}
  |}.

(** ** Sample inputs *)

Definition repo_go : RepositoryRecord :=
  {| description := Some "A fast HTTP router"%string;
     readme_length := Some 1500;
     language := Some "Go"%string;
     stars := Some 5000;
     forks := Some 50 |}.

Definition repo_bare : RepositoryRecord :=
  {| description := None; readme_length := None; language := None;
     stars := None; forks := None |}.

Definition repo_notes : RepositoryRecord :=
  {| description := Some "notes"%string;
     readme_length := Some 40;
     language := Some "Python"%string;
     stars := Some 3;
     forks := Some 0 |}.

Definition repo_described : RepositoryRecord :=
  {| description := Some "dotfiles"%string; readme_length := None;
     language := None; stars := None; forks := None |}.

Definition repo_starred : RepositoryRecord :=
  {| description := None; readme_length := None; language := None;
     stars := Some 11; forks := None |}.

Definition sample_profile : ProfileData :=
  {| repositories := Some [repo_go; repo_bare; repo_notes];
     commit_activity :=
       Some {| consistency_score := Some (50 # 1)%Q;
               total_commits := Some 600 |} |}.

Definition empty_profile : ProfileData :=
  {| repositories := None; commit_activity := None |}.

Definition thirds_profile : ProfileData :=
  {| repositories := Some [repo_described; repo_bare; repo_bare];
     commit_activity :=
       Some {| consistency_score := Some (27 # 350)%Q;
               total_commits := Some 0 |} |}.

Definition idle_profile : ProfileData :=
  {| repositories := Some [repo_bare];
     commit_activity :=
       Some {| consistency_score := Some (0 # 1)%Q;
               total_commits := Some 0 |} |}.

(** ** Further sample inputs *)

Definition repo_popular (lang : string) : RepositoryRecord :=
  {| description := Some "widely used"%string;
     readme_length := Some 4000;
     language := Some lang;
     stars := Some 20000;
     forks := Some 3000 |}.

Definition best_profile : ProfileData :=
  {| repositories :=
       Some [repo_popular "Go"; repo_popular "Rust"; repo_popular "C";
             repo_popular "Python"; repo_popular "OCaml"];
     commit_activity :=
       Some {| consistency_score := Some (100 # 1)%Q;
               total_commits := Some 1500 |} |}.

(** ** Comparing inputs *)

(** [all2 f l l']: the lists have the same length and [f] holds of every
    pair of elements at the same position. *)
Fixpoint all2 {A B} (f : A -> B -> bool) (l : list A) (l' : list B) : bool :=
  match l, l' with
  | [], [] => true
  | x :: l, y :: l' => f x y && all2 f l l'
  | _, _ => false
  end.

(** [r'] is [r] with possibly a longer README, a description added, more
    stars and more forks. *)
Definition no_worse_repository (r r' : RepositoryRecord) : bool :=
  (default 0 (readme_length r) <=? default 0 (readme_length r'))
  && implb (truthy (description r)) (truthy (description r'))
  && (default 0 (stars r) <=? default 0 (stars r'))
  && (default 0 (forks r) <=? default 0 (forks r'))
  && bool_decide (language r = language r').

Definition no_worse_profile (p p' : ProfileData) : bool :=
  let ca := default no_commit_activity (commit_activity p) in
  let ca' := default no_commit_activity (commit_activity p') in
  all2 no_worse_repository (default [] (repositories p))
       (default [] (repositories p'))
  && Qle_bool (default 0%Q (consistency_score ca))
              (default 0%Q (consistency_score ca'))
  && (default 0 (total_commits ca) <=? default 0 (total_commits ca')).

Definition sample_profile_grown : ProfileData :=
  {| repositories :=
       Some [repo_go;
             {| description := Some "scratch"%string;
                readme_length := Some 700; language := None;
                stars := Some 12; forks := Some 1 |};
             {| description := Some "notes"%string;
                readme_length := Some 40;
                language := Some "Python"%string;
                stars := Some 300;
                forks := Some 11 |}];
     commit_activity :=
       Some {| consistency_score := Some (75 # 1)%Q;
               total_commits := Some 1200 |} |}.

(** ** Dashboard helpers (src/app.py) *)

Definition get_score_color (score : Q) : string :=
  if Qle_bool 75 score then "green"
  else if Qle_bool 50 score then "orange"
  else "red".

Definition get_score_class (score : Q) : string :=
  if Qle_bool 75 score then "score-excellent"
  else if Qle_bool 50 score then "score-good"
  else "score-poor".

(** ** Commit history analysis (src/data_extraction.py)

    The GitHub client is the environment of [_analyze_commit_history]; the
    embedding takes what it delivers as input. Listing the user's
    repositories either yields the repositories or raises. For each
    repository, the iteration over its commits delivers the month keys
    (["%Y-%m"]) of the commits processed and then ends in one of three
    ways. *)

Inductive StreamEnd : Type :=
  | Exhausted      (* no more commits *)
  | RaisesOnFetch  (* [get_commits] or fetching the next commit raises *)
  | RaisesOnDate.  (* reading the author date raises, after
                      [total_commits += 1] for that commit *)

#[global] Instance StreamEnd_eq_dec : EqDecision StreamEnd.
Proof. solve_decision. Defined.

Record RepoCommits : Type := {
  delivered : list string;
  stream_end : StreamEnd
}.

(** The dictionary [_analyze_commit_history] returns. *)
Record CommitActivityDict : Type := {
  d_total_commits : Z;
  d_active_months : Z;
  d_consistency_score : Q;
  d_commits_by_month : gmap string Z;
  d_analysis_period_months : Z
}.

(** Body of the inner loop; the state is [(total_commits,
    commits_by_month)]. *)
Definition commit_step (st : Z * gmap string Z) (month_key : string)
  : Z * gmap string Z :=
  let '(total_commits, commits_by_month) := st in
  let total_commits := total_commits + 1 in
  (total_commits,
   <[ month_key := default 0 (commits_by_month !! month_key) + 1 ]>
     commits_by_month).

(** Body of the outer loop: the inner loop under [try: ... except:
    continue]. *)
Definition repo_commits_step (st : Z * gmap string Z) (repo : RepoCommits)
  : Z * gmap string Z :=
  let '(total_commits, commits_by_month) :=
    fold_left commit_step (delivered repo) st in
  match stream_end repo with
  | RaisesOnDate => (total_commits + 1, commits_by_month)
  | Exhausted | RaisesOnFetch => (total_commits, commits_by_month)
  end.

(** The dictionary of the outer [except] branch. *)
Definition commit_history_fallback (months_history : Z)
  : CommitActivityDict :=
  {| d_total_commits := 0;
     d_active_months := 0;
     d_consistency_score := 0;
     d_commits_by_month := ∅;
     d_analysis_period_months := months_history |}.

(** [datetime.utcnow() - timedelta(days=months_history * 30)], with dates
    as proleptic Gregorian ordinals ([today] is the ordinal of the current
    UTC date): [timedelta] raises [OverflowError] when the number of days
    exceeds 999999999 in magnitude, and the subtraction raises it when the
    result leaves the range of [datetime] (ordinals 1 to 3652059). [None]
    stands for the exception. *)
Definition cutoff_date (today months_history : Z) : option Z :=
  let days := months_history * 30 in
  if 999999999 <? Z.abs days then None
  else if (today - days <? 1) || (3652059 <? today - days) then None
  else Some (today - days).

Definition _analyze_commit_history (today months_history : Z)
    (user_repos : PyResult (list RepoCommits)) : CommitActivityDict :=
  let attempt : PyResult CommitActivityDict :=
    repos ← user_repos;
    let '(total_commits, commits_by_month) :=
      fold_left repo_commits_step repos (0, ∅) in
    let active_months := Z.of_nat (size commits_by_month) in
    let expected_months := months_history in
    consistency_score ←
      (if 0 <? expected_months then
         q ← truediv active_months expected_months; mret (q * 100)%Q
       else mret 0%Q);
    mret {| d_total_commits := total_commits;
            d_active_months := active_months;
            d_consistency_score := min_num 100 consistency_score;
            d_commits_by_month := commits_by_month;
            d_analysis_period_months := months_history |} in
  match cutoff_date today months_history with
  | None => commit_history_fallback months_history
  | Some _ =>
      match attempt with
      | Ok d => d
      | Raise _ => commit_history_fallback months_history
      end
  end.

(** The two keys of the dictionary that the scoring engine reads. *)
Definition as_commit_activity (d : CommitActivityDict)
  : CommitActivityRecord :=
  {| consistency_score := Some (d_consistency_score d);
     total_commits := Some (d_total_commits d) |}.

(** All month keys delivered, in order, and the number of repositories
    whose iteration ended on an unreadable date. *)
Definition all_delivered (repos : list RepoCommits) : list string :=
  concat (map delivered repos).

Definition date_failures (repos : list RepoCommits) : Z :=
  Z.of_nat (length (filter (fun r => stream_end r = RaisesOnDate) repos)).

Definition occurrences (k : string) (l : list string) : Z :=
  Z.of_nat (length (filter (fun x => x = k) l)).

(** What a month-count dictionary [m] holds at [k] after the month keys
    [l] were added. *)
Definition tally (l : list string) (m : gmap string Z) (k : string)
  : option Z :=
  if decide (k ∈ l) then Some (default 0 (m !! k) + occurrences k l)
  else m !! k.

Definition sample_streams : list RepoCommits :=
  [ {| delivered := ["2024-01"; "2024-01"; "2024-03"]%string;
       stream_end := Exhausted |};
    {| delivered := ["2024-03"]%string; stream_end := RaisesOnDate |};
    {| delivered := []; stream_end := RaisesOnFetch |};
    {| delivered := ["2024-07"; "2024-08"]%string;
       stream_end := Exhausted |} ].

(** ** Repository extraction (src/data_extraction.py)

    A repository object of the GitHub client, reduced to the attributes
    [_extract_repository_data] copies into the keys that the scoring engine
    and the response read, the outcome of fetching its README, and whether
    building the [repo_info] dictionary from its attributes (among them
    [topics] and [created_at.isoformat()]) raises. *)

Record ApiRepository : Type := {
  api_name : string;
  html_url : string;
  api_description : option string;
  api_language : option string;
  stargazers_count : Z;
  forks_count : Z;
  readme_md : PyResult string;
  attributes_raise : bool
}.

(** The [repo_info] dictionary: the keys read by the scoring engine are
    kept together as a [RepositoryRecord]. *)
Record RepoInfo : Type := {
  info_name : string;
  info_url : string;
  info_record : RepositoryRecord;
  readme_quality : bool;
  readme_sample : string
}.

(** [_extract_readme]: the content, or the empty string on any error. *)
Definition _extract_readme (repo : ApiRepository) : string :=
  match readme_md repo with
  | Ok content => content
  | Raise _ => EmptyString
  end.

(** Body of the loop of [_extract_repository_data], when it does not
    raise. *)
Definition repo_info_of (repo : ApiRepository) : RepoInfo :=
  let readme_content := _extract_readme repo in
  {| info_name := api_name repo;
     info_url := html_url repo;
     info_record :=
       {| description := api_description repo;
          readme_length := Some (Z.of_nat (String.length readme_content));
          language := api_language repo;
          stars := Some (stargazers_count repo);
          forks := Some (forks_count repo) |};
     readme_quality := 500 <? Z.of_nat (String.length readme_content);
     readme_sample := String.substring 0 1000 readme_content |}.

(** [sorted(repos, key=lambda r: r.stargazers_count, reverse=True)]: a
    stable sort in descending order of the key, as an insertion sort that
    places an element before the first one that does not have more stars. *)
Fixpoint insert_by_stars (x : ApiRepository) (l : list ApiRepository)
  : list ApiRepository :=
  match l with
  | [] => [x]
  | y :: l' =>
      if stargazers_count x <? stargazers_count y
      then y :: insert_by_stars x l'
      else x :: y :: l'
  end.

Definition sorted_by_stars (l : list ApiRepository) : list ApiRepository :=
  foldr insert_by_stars [] l.

(** [l[:stop]]: a negative [stop] counts from the end. *)
Definition slice_to {A} (stop : Z) (l : list A) : list A :=
  if 0 <=? stop then take (Z.to_nat stop) l
  else take (length l - Z.to_nat (- stop)) l.

(** The loop of [_extract_repository_data]: an exception in the body ends
    it, and [repos_data] keeps what was appended before. *)
Fixpoint extract_loop (repos : list ApiRepository) : list RepoInfo :=
  match repos with
  | [] => []
  | repo :: rest =>
      if attributes_raise repo then []
      else repo_info_of repo :: extract_loop rest
  end.

(** [_extract_repository_data]: [listing] is the outcome of
    [user.get_repos(...)] and of sorting it; when it raises, the empty
    [repos_data] is returned. *)
Definition _extract_repository_data (max_repos : Z)
    (listing : PyResult (list ApiRepository)) : list RepoInfo :=
  match listing with
  | Ok repos =>
      let all_repos := sorted_by_stars repos in
      extract_loop (slice_to max_repos all_repos)
  | Raise _ => []
  end.

(** [get_profile_data], for a user that was found, restricted to the two
    keys the scoring engine reads. *)
Definition get_profile_data (today max_repos months_history : Z)
    (listing : PyResult (list ApiRepository))
    (commit_listing : PyResult (list RepoCommits)) : ProfileData :=
  {| repositories :=
       Some (map info_record (_extract_repository_data max_repos listing));
     commit_activity :=
       Some (as_commit_activity
               (_analyze_commit_history today months_history
                  commit_listing)) |}.

(** Descending order of stars. *)
Fixpoint descending (l : list ApiRepository) : Prop :=
  match l with
  | [] => True
  | x :: l' =>
      Forall (fun y => stargazers_count y <= stargazers_count x) l'
      /\ descending l'
  end.

Definition api_repo (name : string) (stars_ : Z) (readme : PyResult string)
  : ApiRepository :=
  {| api_name := name; html_url := name; api_description := None;
     api_language := Some "Go"%string; stargazers_count := stars_;
     forks_count := 0; readme_md := readme; attributes_raise := false |}.

Definition sample_listing : list ApiRepository :=
  [ api_repo "a" 3 (Ok "readme"%string);
    api_repo "b" 50 (Raise ZeroDivisionError);
    api_repo "c" 3 (Ok EmptyString);
    api_repo "d" 7 (Ok "docs"%string) ].

(** ** Username extraction (src/routes.py)

    A Python [str] is a sequence of Unicode code points. *)

Definition char : Type := N.
Definition str : Type := list char.

(** The code points of a literal of the source. *)
Definition codes (s : string) : str :=
  map Ascii.N_of_ascii (String.list_ascii_of_string s).

(** [str.isspace] on one character: the whitespace that [str.strip]
    removes. *)
Definition is_space (c : char) : bool :=
  bool_decide (c ∈ [9; 10; 11; 12; 13; 28; 29; 30; 31; 32; 133; 160; 5760;
                    8192; 8193; 8194; 8195; 8196; 8197; 8198; 8199; 8200;
                    8201; 8202; 8232; 8233; 8239; 8287; 12288]%N).

Fixpoint lstrip (s : str) : str :=
  match s with
  | c :: s' => if is_space c then lstrip s' else s
  | [] => []
  end.

Definition rstrip (s : str) : str := rev (lstrip (rev s)).

Definition strip (s : str) : str := rstrip (lstrip s).

(** The regular expressions of [extract_username]. Repetition is applied
    to one-character items only, as in the patterns of the source. *)
Inductive regex : Type :=
  | Empty
  | Lit (c : char)                 (* a literal character, escaped or not *)
  | Chars (cls : char -> bool)     (* [.] or a set [[...]] *)
  | Cat (r1 r2 : regex)            (* concatenation *)
  | Opt (r : regex)                (* [r?], greedy *)
  | Star (cls : char -> bool)      (* [x*], greedy *)
  | Plus (cls : char -> bool)      (* [x+], greedy *)
  | Group1 (r : regex)             (* the capturing group [(...)] *)
  | Bol                            (* [^] *)
  | Eol.                           (* [$] *)

Definition sequence (rs : list regex) : regex := foldr Cat Empty rs.

Definition lit (s : string) : regex := sequence (map Lit (codes s)).

(** [.] without [re.DOTALL]. *)
Definition dot (c : char) : bool := negb (c =? 10)%N.

(** [[a-zA-Z0-9_-]]. *)
Definition username_char (c : char) : bool :=
  ((97 <=? c) && (c <=? 122) || (65 <=? c) && (c <=? 90)
   || (48 <=? c) && (c <=? 57) || (c =? 95) || (c =? 45))%N.

(** The backtracking matcher. The continuation [k] stands for what remains
    of the pattern; it receives the position reached, the rest of the
    input and the text captured by group 1, and answers [None] to make the
    matcher try its next alternative. A greedy repetition takes as many
    characters as it can and gives them back one by one. *)
Fixpoint star_from {A} (cls : char -> bool) (pos : nat) (s : str)
    (k : nat -> str -> option A) : option A :=
  match s with
  | c :: s' =>
      if cls c then
        match star_from cls (S pos) s' k with
        | Some m => Some m
        | None => k pos s
        end
      else k pos s
  | [] => k pos []
  end.

Fixpoint exec {A} (r : regex) (pos : nat) (s : str) (g : option str)
    (k : nat -> str -> option str -> option A) : option A :=
  match r with
  | Empty => k pos s g
  | Lit c =>
      match s with
      | c' :: s' => if (c' =? c)%N then k (S pos) s' g else None
      | [] => None
      end
  | Chars cls =>
      match s with
      | c' :: s' => if cls c' then k (S pos) s' g else None
      | [] => None
      end
  | Cat r1 r2 => exec r1 pos s g (fun pos' s' g' => exec r2 pos' s' g' k)
  | Opt r1 =>
      match exec r1 pos s g k with
      | Some m => Some m
      | None => k pos s g
      end
  | Star cls => star_from cls pos s (fun pos' s' => k pos' s' g)
  | Plus cls =>
      match s with
      | c' :: s' =>
          if cls c' then star_from cls (S pos) s' (fun pos' s' => k pos' s' g)
          else None
      | [] => None
      end
  | Group1 r1 =>
      exec r1 pos s g
        (fun pos' s' _ => k pos' s' (Some (take (pos' - pos) s)))
  | Bol => if (pos =? 0)%nat then k pos s g else None
  | Eol =>
      match s with
      | [] => k pos s g
      | [c] => if (c =? 10)%N then k pos s g else None
      | _ => None
      end
  end.

(** [re.match(pattern, string)]: the match object, reduced to its
    [group(1)], which is [None] when the group took no part. *)
Definition re_match (pattern : regex) (s : str) : option (option str) :=
  exec pattern 0%nat s None (fun _ _ g => Some g).

Definition url_patterns : list regex :=
  [ sequence [lit "http"; Opt (lit "s"); lit "://"; Opt (lit "www.");
         lit "github.com/"; Group1 (Plus username_char); Opt (lit "/");
         Opt (sequence [lit "?"; Star dot]); Eol];
    sequence [lit "github.com/"; Group1 (Plus username_char); Opt (lit "/");
         Opt (sequence [lit "?"; Star dot]); Eol];
    sequence [Opt (sequence [lit "http"; Opt (lit "s"); lit "://"]);
         Opt (lit "www."); lit "github.com/";
         Group1 (Plus username_char)] ].

Definition username_pattern : regex := sequence [Bol; Plus username_char; Eol].

(** The loop over [url_patterns]. *)
Fixpoint first_match (patterns : list regex) (input_str : str)
  : option (option str) :=
  match patterns with
  | [] => None
  | pattern :: rest =>
      match re_match pattern input_str with
      | Some m => Some m
      | None => first_match rest input_str
      end
  end.

(** What [extract_username] does: it returns a value ([group(1)] of a
    match, or the stripped input) or raises [ValueError] with a message. *)
Inductive Outcome (A : Type) : Type :=
  | Returns (v : A)
  | ValueError (message : str).
Arguments Returns {A} v.
Arguments ValueError {A} message.

Definition extract_username (input_str : str) : Outcome (option str) :=
  if bool_decide (input_str = []) || bool_decide (strip input_str = [])
  then ValueError (codes "Username or URL cannot be empty")
  else
    let input_str := strip input_str in
    match first_match url_patterns input_str with
    | Some group1 => Returns group1
    | None =>
        match re_match username_pattern input_str with
        | Some _ => Returns (Some input_str)
        | None =>
            ValueError
              (codes "Invalid GitHub username or URL: " ++ input_str)
        end
    end.

(** Auxiliary notions used to state the properties of
    [extract_username]. *)

(** [cls] does not accept the first character of [t], if there is one. *)
Definition stops (cls : char -> bool) (t : str) : bool :=
  match t with
  | c :: _ => negb (cls c)
  | [] => true
  end.

Definition is_username (u : str) : Prop :=
  u ≠ [] /\ Forall (fun c => username_char c = true) u.

Definition schemes : list str := [[]; codes "http://"; codes "https://"].
Definition hosts : list str := [codes "github.com/"; codes "www.github.com/"].

(** [scheme ++ host ++ u ++ t]: a GitHub address of user [u]. *)
Definition github_url (s u : str) : Prop :=
  exists scheme host t,
    scheme ∈ schemes /\ host ∈ hosts
    /\ stops username_char t = true
    /\ s = scheme ++ host ++ u ++ t.

Fixpoint group_free (r : regex) : bool :=
  match r with
  | Cat r1 r2 => group_free r1 && group_free r2
  | Opt r1 => group_free r1
  | Group1 _ => false
  | _ => true
  end.

(** * The engine on binary64 numbers, as an object

    Python's [float] is the IEEE 754 binary64 format. This part embeds the
    scoring engine on that format, bit for bit, with the Standard Library's
    specification of the format ([SpecFloat]), and with the objects a call
    can reach held in an explicit heap. *)

Module B64.

Definition prec : Z := 53.
Definition emax : Z := 1024.

Definition float : Type := spec_float.

(** A Python number: an [int] or a [float]. *)
Inductive number : Type :=
  | PyInt (n : Z)
  | PyFloat (x : float).

Inductive Exception : Type :=
  | ZeroDivisionError
  | KeyError (key : string)
  | OverflowError.

Inductive Result (A : Type) : Type :=
  | Done (a : A)
  | Raised (e : Exception).
Arguments Done {A} a.
Arguments Raised {A} e.

Definition is_infinite (x : float) : bool :=
  match x with
  | S754_infinity _ => true
  | _ => false
  end.

(** An integer as a float of unbounded precision. *)
Definition exact (n : Z) : float :=
  match n with
  | Z0 => S754_zero false
  | Zpos p => S754_finite false p 0
  | Zneg p => S754_finite true p 0
  end.

(** The binary64 number nearest to [num / den], ties to even: how a decimal
    literal such as [0.30] is read ([num = 30], [den = 100]). *)
Definition nearest (num den : Z) : float :=
  SFdiv prec emax (exact num) (exact den).

(** Conversion of an [int] operand to [float]: the nearest binary64
    number, or [OverflowError] when the int is too large. *)
Definition float_of_int (n : Z) : Result float :=
  let x := binary_normalize prec emax n 0 false in
  if is_infinite x then Raised OverflowError else Done x.

Definition as_float (v : number) : Result float :=
  match v with
  | PyInt n => float_of_int n
  | PyFloat x => Done x
  end.

(** [a / b] on two ints: the correctly rounded quotient. *)
Definition int_truediv (a b : Z) : Result float :=
  if b =? 0 then Raised ZeroDivisionError
  else
    let q := nearest a b in
    if is_infinite q then Raised OverflowError else Done q.

(** The exact value of a finite float. *)
Definition value (x : float) : Q :=
  match x with
  | S754_finite s m e =>
      let v := match e with
               | Zneg k => Zpos m # (2 ^ k)
               | _ => inject_Z (Zpos m * 2 ^ e)
               end in
      if s then Qopp v else v
  | _ => 0%Q
  end.

(** [round(x, ndigits)] on a float, for [0 <= ndigits <= 323]: the exact
    value is rounded to [ndigits] decimals, ties to even, and the decimal
    obtained is read back as a float; zeros, infinities and NaN are
    returned as they are. *)
Definition round_float (x : float) (ndigits : nat) : float :=
  match x with
  | S754_finite s _ _ =>
      let scale := 10 ^ Z.of_nat ndigits in
      let n := round_half_even (value x * inject_Z scale) in
      if n =? 0 then S754_zero s else nearest n scale
  | _ => x
  end.

(** [round(v, ndigits)]: an [int] is returned as it is. *)
Definition round (v : number) (ndigits : nat) : number :=
  match v with
  | PyInt n => PyInt n
  | PyFloat x => PyFloat (round_float x ndigits)
  end.

(** [a * b] and [a + b]: on two ints the exact result, otherwise the
    binary64 operation on the operands converted to [float]. *)
Definition mul (a b : number) : Result number :=
  match a, b with
  | PyInt m, PyInt n => Done (PyInt (m * n))
  | _, _ =>
      match as_float a, as_float b with
      | Done x, Done y => Done (PyFloat (SFmul prec emax x y))
      | Raised e, _ => Raised e
      | _, Raised e => Raised e
      end
  end.

Definition add (a b : number) : Result number :=
  match a, b with
  | PyInt m, PyInt n => Done (PyInt (m + n))
  | _, _ =>
      match as_float a, as_float b with
      | Done x, Done y => Done (PyFloat (SFadd prec emax x y))
      | Raised e, _ => Raised e
      | _, Raised e => Raised e
      end
  end.

(** [x < n] for a float and an int: the comparison is exact, and false
    for NaN. *)
Definition float_lt_int (x : float) (n : Z) : bool :=
  match x with
  | S754_nan => false
  | S754_infinity s => s
  | S754_zero _ => 0 <? n
  | S754_finite _ _ _ =>
      match (value x ?= inject_Z n)%Q with
      | Lt => true
      | _ => false
      end
  end.

(** [min(n, v)] for an int [n]: the first argument unless the second is
    strictly smaller. *)
Definition min_with_int (n : Z) (v : number) : number :=
  match v with
  | PyInt m => if m <? n then PyInt m else PyInt n
  | PyFloat x => if float_lt_int x n then PyFloat x else PyInt n
  end.

(** ** Input and output records *)

Record CommitActivityRecord : Type := {
  consistency_score : option number;
  total_commits : option Z
}.

Definition no_commit_activity : CommitActivityRecord :=
  {| consistency_score := None; total_commits := None |}.

Record ProfileData : Type := {
  repositories : option (list RepositoryRecord);
  commit_activity : option CommitActivityRecord
}.

Record ComponentScore : Type := {
  score : number;
  weight : number
}.

Record ScoreBreakdown : Type := {
  total_score : number;
  documentation_score : number;
  technical_depth_score : number;
  activity_score : number;
  score_breakdown : gmap string ComponentScore
}.

(** ** The heap

    What a call of a method of the engine can reach: the dictionary bound
    to the class attribute [ScoringEngine.WEIGHTS], the entry [WEIGHTS] of
    the instance's own [__dict__] when one was assigned (it would shadow
    the class attribute), the dictionary passed as [profile_data], and
    everything else (module globals, other objects), of which nothing is
    assumed. *)
Record Heap (G : Type) : Type := {
  class_WEIGHTS : gmap string number;
  instance_WEIGHTS : option (gmap string number);
  profile_object : ProfileData;
  globals : G
}.
Arguments class_WEIGHTS {G} h.
Arguments instance_WEIGHTS {G} h.
Arguments profile_object {G} h.
Arguments globals {G} h.

(** A statement or expression: from a heap, a value or an exception, and
    the heap it leaves. *)
Definition Py (G A : Type) : Type := Heap G -> Result A * Heap G.

Definition ret {G A} (a : A) : Py G A := fun h => (Done a, h).

Definition bind {G A B} (m : Py G A) (k : A -> Py G B) : Py G B :=
  fun h =>
    match m h with
    | (Done a, h') => k a h'
    | (Raised e, h') => (Raised e, h')
    end.

Notation "x <- m ;; k" := (bind m (fun x => k))
  (at level 100, m at next level, right associativity,
   format "'[' x  <-  m  ;;  '/' k ']'").

(** An expression that touches no object. *)
Definition pure {G A} (r : Result A) : Py G A := fun h => (r, h).

(** [self.WEIGHTS]: the instance's attribute if it has one, the class
    attribute otherwise. *)
Definition self_WEIGHTS {G} : Py G (gmap string number) :=
  fun h => (Done (default (class_WEIGHTS h) (instance_WEIGHTS h)), h).

(** [profile_data.get("repositories", [])] *)
Definition get_repositories {G} : Py G (list RepositoryRecord) :=
  fun h => (Done (default [] (repositories (profile_object h))), h).

(** [profile_data.get("commit_activity", {})] *)
Definition get_commit_activity {G} : Py G CommitActivityRecord :=
  fun h =>
    (Done (default no_commit_activity (commit_activity (profile_object h))),
     h).

(** [d[key]] *)
Definition subscript {A} (key : string) (o : option A) : Result A :=
  match o with
  | Some a => Done a
  | None => Raised (KeyError key)
  end.

(** ** The methods *)

Definition _score_documentation {G} : Py G number :=
  repos <- get_repositories ;;
  let '(score, count) := fold_left doc_step repos (0, 0) in
  if 0 <? count then
    x <- pure (int_truediv score count) ;; ret (PyFloat x)
  else ret (PyInt 0).

(** The outcome of a statement of the exact embedding, which raises
    nothing but [ZeroDivisionError] and [KeyError]. *)
Definition lift {A} (r : PyResult A) : Result A :=
  match r with
  | Ok a => Done a
  | Raise Py.ZeroDivisionError => Raised ZeroDivisionError
  | Raise (Py.KeyError key) => Raised (KeyError key)
  end.

Definition _score_technical_depth {G} : Py G number :=
  repos <- get_repositories ;;
  languages <- pure (lift (for_each language_step repos ∅)) ;;
  let language_score := min_int 100 (Z.of_nat (size languages) * 20) in
  let complexity_score := fold_left complexity_step repos 0 in
  q <- pure (lift (floordiv complexity_score
                     (Z.max 1 (Z.of_nat (length repos))))) ;;
  let complexity_score := min_int 100 q in
  a <- pure (mul (PyInt language_score) (PyFloat (nearest 4 10))) ;;
  b <- pure (mul (PyInt complexity_score) (PyFloat (nearest 6 10))) ;;
  pure (add a b).

Definition _score_activity {G} : Py G number :=
  commit_activity <- get_commit_activity ;;
  let consistency := default (PyInt 0) (consistency_score commit_activity) in
  let total_commits := default 0 (total_commits commit_activity) in
  let commit_bonus := commit_bonus_of total_commits in
  c <- pure (mul consistency (PyFloat (nearest 7 10))) ;;
  activity_score <- pure (add c (PyInt commit_bonus)) ;;
  ret (min_with_int 100 activity_score).

Definition calculate_score {G} : Py G ScoreBreakdown :=
  doc_score <- _score_documentation ;;
  tech_score <- _score_technical_depth ;;
  activity_score <- _score_activity ;;
  W <- self_WEIGHTS ;;
  w_doc <- pure (subscript "documentation" (W !! "documentation"%string)) ;;
  p_doc <- pure (mul doc_score w_doc) ;;
  W <- self_WEIGHTS ;;
  w_tech <- pure (subscript "technical_depth"
                    (W !! "technical_depth"%string)) ;;
  p_tech <- pure (mul tech_score w_tech) ;;
  s <- pure (add p_doc p_tech) ;;
  W <- self_WEIGHTS ;;
  w_act <- pure (subscript "activity" (W !! "activity"%string)) ;;
  p_act <- pure (mul activity_score w_act) ;;
  total_score <- pure (add s p_act) ;;
  W <- self_WEIGHTS ;;
  w_doc' <- pure (subscript "documentation" (W !! "documentation"%string)) ;;
  W <- self_WEIGHTS ;;
  w_tech' <- pure (subscript "technical_depth"
                     (W !! "technical_depth"%string)) ;;
  W <- self_WEIGHTS ;;
  w_act' <- pure (subscript "activity" (W !! "activity"%string)) ;;
  ret {|
    total_score := round total_score 2;
    documentation_score := round doc_score 2;
    technical_depth_score := round tech_score 2;
    activity_score := round activity_score 2;
    score_breakdown :=
      {[ "documentation"%string :=
           {| score := round doc_score 2; weight := w_doc' |};
         "technical_depth"%string :=
           {| score := round tech_score 2; weight := w_tech' |};
         "activity"%string :=
           {| score := round activity_score 2; weight := w_act' |} ]}
  |}.

(** The class as the source defines it, and a call on a fresh
    [ScoringEngine()]. *)
Definition WEIGHTS : gmap string number :=
  {[ "documentation"%string := PyFloat (nearest 30 100);
     "technical_depth"%string := PyFloat (nearest 40 100);
     "activity"%string := PyFloat (nearest 30 100) ]}.

Definition fresh {G} (profile_data : ProfileData) (g : G) : Heap G :=
  {| class_WEIGHTS := WEIGHTS; instance_WEIGHTS := None;
     profile_object := profile_data; globals := g |}.

(** ** Notions used to state the properties *)

(** What [calculate_score] may read: the dictionary [self.WEIGHTS]
    resolves to, and the profile. *)
Definition footprint {G} (h : Heap G) : gmap string number * ProfileData :=
  (default (class_WEIGHTS h) (instance_WEIGHTS h), profile_object h).

(** A computation that leaves the heap as it found it and whose outcome
    depends on the footprint only. *)
Definition readonly {G A} (m : Py G A) : Prop :=
  forall h,
    snd (m h) = h
    /\ forall h', footprint h' = footprint h -> fst (m h') = fst (m h).

(** [consistency_score] within [0, 100], as an int or as a float. *)
Definition valid_consistency (v : number) : bool :=
  match v with
  | PyInt n => (0 <=? n) && (n <=? 100)
  | PyFloat (S754_zero _) => true
  | PyFloat (S754_finite false m e) =>
      Qle_bool (value (S754_finite false m e)) 100
  | PyFloat _ => false
  end.

Definition valid_profile (profile_data : ProfileData) : bool :=
  let ca := default no_commit_activity (commit_activity profile_data) in
  forallb Spec.valid_repository (default [] (repositories profile_data))
  && valid_consistency (default (PyInt 0) (consistency_score ca))
  && (0 <=? default 0 (total_commits ca)).

Definition fmul : float -> float -> float := SFmul prec emax.
Definition fadd : float -> float -> float := SFadd prec emax.

(** Sample inputs. *)
Definition repo_readme_101 : RepositoryRecord :=
  {| description := None; readme_length := Some 101; language := None;
     stars := None; forks := None |}.

Definition tie_profile : ProfileData :=
  {| repositories := Some [repo_bare; repo_bare; repo_bare; repo_readme_101];
     commit_activity := None |}.

Definition thirds_profile : ProfileData :=
  {| repositories := Some [repo_described; repo_bare; repo_bare];
     commit_activity :=
       Some {| consistency_score := Some (PyFloat (nearest 27 350));
               total_commits := Some 0 |} |}.

Definition three_quarters_profile : ProfileData :=
  {| repositories := None;
     commit_activity :=
       Some {| consistency_score := Some (PyFloat (nearest 75 100));
               total_commits := None |} |}.

End B64.

(** * Properties *)

(** [returns m v]: the call [m] does not raise and its result has value [v]. *)
Definition returns (m : PyResult Q) (v : Q) : Prop :=
  match m with
  | Ok r => (r == v)%Q
  | Raise _ => False
  end.

(** ** Rounding *)

Section Rounding.

#[global] Instance round_half_even_comp :
  Proper (Qeq ==> eq) round_half_even.
Proof.
  intros x y Hxy. unfold round_half_even.
  rewrite (Qfloor_comp x y Hxy).
  assert (He : (x - inject_Z (Qfloor y) == y - inject_Z (Qfloor y))%Q)
    by (rewrite Hxy; reflexivity).
  by rewrite (Qcompare_comp _ _ He (1 # 2) (1 # 2) (Qeq_refl _)).
Qed.

#[global] Instance round_comp : Proper (Qeq ==> eq ==> eq) round.
Proof.
  intros x y Hxy n ? <-. unfold round.
  assert (He : (x * inject_Z (10 ^ Z.of_nat n)
                == y * inject_Z (10 ^ Z.of_nat n))%Q)
    by (rewrite Hxy; reflexivity).
  by rewrite (round_half_even_comp _ _ He).
Qed.

Lemma round_half_even_floor_le (x : Q) : Qfloor x <= round_half_even x.
Proof.
  unfold round_half_even.
  destruct (_ ?= _)%Q; [destruct (Z.even _)|..]; lia.
Qed.

Lemma round_half_even_lower (z : Z) (x : Q) :
  (inject_Z z <= x)%Q -> z <= round_half_even x.
Proof.
  intros Hx. apply Qfloor_resp_le in Hx. rewrite Qfloor_Z in Hx.
  pose proof (round_half_even_floor_le x). lia.
Qed.

Lemma round_half_even_upper (z : Z) (x : Q) :
  (x <= inject_Z z)%Q -> round_half_even x <= z.
Proof.
  intros Hx. pose proof (Qfloor_resp_le _ _ Hx) as Hf. rewrite Qfloor_Z in Hf.
  unfold round_half_even.
  destruct (Z.eq_dec (Qfloor x) z) as [Heq | Hne].
  - assert (Hlt : (x - inject_Z (Qfloor x) < 1 # 2)%Q) by (rewrite Heq; lra).
    rewrite (proj1 (Qlt_alt _ _) Hlt). lia.
  - destruct (_ ?= _)%Q; [destruct (Z.even _)|..]; lia.
Qed.

Lemma pow10_pos (n : nat) : (0 < inject_Z (10 ^ Z.of_nat n))%Q.
Proof.
  change 0%Q with (inject_Z 0). rewrite <- Zlt_Qlt.
  apply Z.pow_pos_nonneg; lia.
Qed.

Lemma round_lower (z : Z) (x : Q) (n : nat) :
  (inject_Z z <= x)%Q -> (inject_Z z <= round x n)%Q.
Proof.
  intros Hx. unfold round.
  pose proof (pow10_pos n) as Hs.
  set (s := 10 ^ Z.of_nat n) in *.
  apply Qle_shift_div_l; [exact Hs|].
  rewrite <- inject_Z_mult, <- Zle_Qle.
  apply round_half_even_lower. rewrite inject_Z_mult.
  apply Qmult_le_compat_r; lra.
Qed.

Lemma round_upper (z : Z) (x : Q) (n : nat) :
  (x <= inject_Z z)%Q -> (round x n <= inject_Z z)%Q.
Proof.
  intros Hx. unfold round.
  pose proof (pow10_pos n) as Hs.
  set (s := 10 ^ Z.of_nat n) in *.
  apply Qle_shift_div_r; [exact Hs|].
  rewrite <- inject_Z_mult, <- Zle_Qle.
  apply round_half_even_upper. rewrite inject_Z_mult.
  apply Qmult_le_compat_r; lra.
Qed.

Lemma round_range (x : Q) (n : nat) :
  (0 <= x <= 100)%Q -> (0 <= round x n <= 100)%Q.
Proof.
  intros [Hlo Hhi]. split.
  - apply (round_lower 0); exact Hlo.
  - apply (round_upper 100); exact Hhi.
Qed.

End Rounding.

(** ** Documentation score *)

Section Documentation.

Lemma Zsum_cons (x : Z) (l : list Z) : Spec.Zsum (x :: l) = x + Spec.Zsum l.
Proof. reflexivity. Qed.

Lemma truthy_has_nonempty (o : option string) :
  truthy o = Spec.has_nonempty o.
Proof.
  destruct o as [s|]; [|reflexivity]. simpl.
  destruct (String.eqb_spec s EmptyString) as [-> | Hne]; simpl.
  - reflexivity.
  - symmetry. by apply bool_decide_eq_true.
Qed.

Lemma min_int_Zmin (a b : Z) : min_int a b = Z.min a b.
Proof. unfold min_int. destruct (Z.ltb_spec b a); lia. Qed.

Lemma doc_step_spec (score count : Z) (repo : RepositoryRecord) :
  doc_step (score, count) repo
  = (score + Spec.repository_documentation repo, count + 1).
Proof.
  unfold doc_step, Spec.repository_documentation, Spec.readme_base.
  rewrite truthy_has_nonempty, min_int_Zmin.
  set (n := default 0 (readme_length repo)).
  repeat f_equal.
  repeat case_bool_decide;
    destruct (Z.ltb_spec 1000 n); try lia;
    destruct (Z.ltb_spec 500 n); try lia;
    destruct (Z.ltb_spec 100 n); try lia;
    destruct (Spec.has_nonempty _); reflexivity.
Qed.

Lemma doc_loop_spec (repos : list RepositoryRecord) (score count : Z) :
  fold_left doc_step repos (score, count)
  = (score + Spec.Zsum (map Spec.repository_documentation repos),
     count + Z.of_nat (length repos)).
Proof.
  revert score count.
  induction repos as [|repo repos IH]; intros score count.
  - simpl. f_equal; lia.
  - cbn [fold_left]. rewrite doc_step_spec, IH.
    cbn [map length]. rewrite Zsum_cons. f_equal; lia.
Qed.

Lemma repository_documentation_range (repo : RepositoryRecord) :
  25 <= Spec.repository_documentation repo <= 100.
Proof.
  unfold Spec.repository_documentation, Spec.readme_base.
  repeat case_bool_decide; destruct (Spec.has_nonempty _); lia.
Qed.

Lemma documentation_sum_range (repos : list RepositoryRecord) :
  25 * Z.of_nat (length repos)
  <= Spec.Zsum (map Spec.repository_documentation repos)
  <= 100 * Z.of_nat (length repos).
Proof.
  induction repos as [|repo repos IH]; [simpl; lia|].
  pose proof (repository_documentation_range repo).
  cbn [map length]. rewrite Zsum_cons. lia.
Qed.

Lemma mean_range (lo hi : Z) (l : list Z) :
  l ≠ [] ->
  lo * Z.of_nat (length l) <= Spec.Zsum l <= hi * Z.of_nat (length l) ->
  (inject_Z lo <= Spec.mean l <= inject_Z hi)%Q.
Proof.
  intros Hne [Hlo Hhi]. unfold Spec.mean.
  assert (Hpos : (0 < inject_Z (Z.of_nat (length l)))%Q).
  { change 0%Q with (inject_Z 0). rewrite <- Zlt_Qlt.
    destruct l; [done | simpl; lia]. }
  split.
  - apply Qle_shift_div_l; [exact Hpos|].
    rewrite <- inject_Z_mult, <- Zle_Qle. exact Hlo.
  - apply Qle_shift_div_r; [exact Hpos|].
    rewrite <- inject_Z_mult, <- Zle_Qle. exact Hhi.
Qed.

Lemma score_documentation_eq (profile_data : ProfileData) :
  _score_documentation profile_data
  = Ok (Spec.score_documentation (default [] (repositories profile_data))).
Proof.
  unfold _score_documentation.
  set (repos := default [] (repositories profile_data)).
  rewrite doc_loop_spec.
  destruct repos as [|repo repos]; [reflexivity|].
  destruct (Z.ltb_spec 0 (0 + Z.of_nat (length (repo :: repos))))
    as [Hlt | Hge]; [|simpl in Hge; lia].
  unfold truediv.
  destruct (Z.eqb_spec (0 + Z.of_nat (length (repo :: repos))) 0)
    as [Hz | _]; [lia|].
  unfold Spec.score_documentation, Spec.mean.
  rewrite length_map. reflexivity.
Qed.

Lemma score_documentation_range (repos : list RepositoryRecord) :
  (0 <= Spec.score_documentation repos <= 100)%Q.
Proof.
  destruct repos as [|repo repos]; [simpl; lra|].
  unfold Spec.score_documentation.
  assert (Hm : (inject_Z 25
                <= Spec.mean (map Spec.repository_documentation
                                  (repo :: repos))
                <= inject_Z 100)%Q).
  { apply mean_range; [done|]. rewrite length_map.
    apply documentation_sum_range. }
  change (inject_Z 25) with 25%Q in Hm.
  change (inject_Z 100) with 100%Q in Hm. lra.
Qed.

End Documentation.

(** ** Technical depth score *)

Section TechnicalDepth.

Lemma Qmult_comm_eq (x y : Q) : (x * y)%Q = (y * x)%Q.
Proof.
  unfold Qmult. f_equal; [apply Z.mul_comm | apply Pos.mul_comm].
Qed.

Lemma added_languages_cons (repo : RepositoryRecord)
    (repos : list RepositoryRecord) :
  added_languages (repo :: repos)
  = match language repo with
    | Some l =>
        if truthy (Some l) then l :: added_languages repos
        else added_languages repos
    | None => added_languages repos
    end.
Proof.
  unfold added_languages. cbn [omap list_omap].
  destruct (language repo) as [l|]; [|reflexivity].
  cbn [truthy].
  destruct (String.eqb_spec l EmptyString) as [-> | Hne]; cbn [negb].
  - by rewrite filter_cons_False by (intros H; by apply H).
  - by rewrite filter_cons_True.
Qed.

Lemma language_loop_spec (repos : list RepositoryRecord)
    (languages : gset string) :
  for_each language_step repos languages
  = Ok (list_to_set (added_languages repos) ∪ languages).
Proof.
  revert languages.
  induction repos as [|repo repos IH]; intros languages.
  - simpl. f_equal. by rewrite union_empty_l_L.
  - cbn [for_each]. rewrite added_languages_cons. unfold language_step.
    destruct (language repo) as [l|] eqn:Hl; [|simpl; apply IH].
    destruct (truthy (Some l)); simpl.
    + rewrite IH. f_equal.
      rewrite union_assoc_L. f_equal. apply union_comm_L.
    + apply IH.
Qed.

Lemma size_list_to_set_remove_dups (l : list string) :
  size (list_to_set l : gset string) = length (remove_dups l).
Proof.
  rewrite <- (size_list_to_set (C := gset string) (remove_dups l))
    by apply NoDup_remove_dups.
  f_equal. apply set_eq. intros x.
  rewrite !elem_of_list_to_set. by rewrite elem_of_remove_dups.
Qed.

Lemma complexity_step_spec (complexity_score : Z) (repo : RepositoryRecord) :
  complexity_step complexity_score repo
  = complexity_score + Spec.repository_complexity repo.
Proof.
  unfold complexity_step, Spec.repository_complexity, Spec.star_tier,
    Spec.fork_tier.
  set (s := default 0 (stars repo)). set (f := default 0 (forks repo)).
  repeat case_bool_decide;
    destruct (Z.ltb_spec 1000 s); try lia;
    destruct (Z.ltb_spec 100 s); try lia;
    destruct (Z.ltb_spec 10 s); try lia;
    destruct (Z.ltb_spec 100 f); try lia;
    destruct (Z.ltb_spec 10 f); lia.
Qed.

Lemma complexity_loop_spec (repos : list RepositoryRecord)
    (complexity_score : Z) :
  fold_left complexity_step repos complexity_score
  = complexity_score + Spec.Zsum (map Spec.repository_complexity repos).
Proof.
  revert complexity_score.
  induction repos as [|repo repos IH]; intros complexity_score.
  - simpl. lia.
  - cbn [fold_left map]. rewrite complexity_step_spec, IH, Zsum_cons. lia.
Qed.

Lemma repository_complexity_range (repo : RepositoryRecord) :
  5 <= Spec.repository_complexity repo <= 50.
Proof.
  unfold Spec.repository_complexity, Spec.star_tier, Spec.fork_tier.
  repeat case_bool_decide; lia.
Qed.

Lemma complexity_sum_nonneg (repos : list RepositoryRecord) :
  0 <= Spec.Zsum (map Spec.repository_complexity repos).
Proof.
  induction repos as [|repo repos IH]; [simpl; lia|].
  pose proof (repository_complexity_range repo).
  cbn [map]. rewrite Zsum_cons. lia.
Qed.

Lemma score_technical_depth_eq (profile_data : ProfileData) :
  _score_technical_depth profile_data
  = Ok (Spec.score_technical_depth
          (default [] (repositories profile_data))).
Proof.
  unfold _score_technical_depth.
  set (repos := default [] (repositories profile_data)).
  rewrite language_loop_spec. cbn [mbind PyResult_bind bind].
  rewrite complexity_loop_spec. unfold floordiv.
  destruct (Z.eqb_spec (Z.max 1 (Z.of_nat (length repos))) 0)
    as [Hz | _]; [lia|].
  cbn [mbind PyResult_bind bind mret PyResult_ret]. f_equal.
  unfold Spec.score_technical_depth, Spec.language_score,
    Spec.complexity_score, Spec.distinct_languages.
  rewrite !min_int_Zmin, union_empty_r_L, size_list_to_set_remove_dups.
  fold (added_languages repos).
  rewrite (Qmult_comm_eq 0.4), (Qmult_comm_eq 0.6).
  rewrite (Z.mul_comm 20), Z.add_0_l. reflexivity.
Qed.

Lemma score_technical_depth_range (repos : list RepositoryRecord) :
  (0 <= Spec.score_technical_depth repos <= 100)%Q.
Proof.
  unfold Spec.score_technical_depth.
  assert (Hl : 0 <= Spec.language_score repos <= 100)
    by (unfold Spec.language_score; lia).
  assert (Hc : 0 <= Spec.complexity_score repos <= 100).
  { unfold Spec.complexity_score.
    pose proof (complexity_sum_nonneg repos) as Hs.
    assert (0 <= Spec.Zsum (map Spec.repository_complexity repos)
                 `div` Z.max 1 (Z.of_nat (length repos)))
      by (apply Z.div_pos; lia).
    lia. }
  destruct Hl as [Hl0 Hl1], Hc as [Hc0 Hc1].
  rewrite Zle_Qle in Hl0, Hl1, Hc0, Hc1.
  change (inject_Z 0) with 0%Q in *. change (inject_Z 100) with 100%Q in *.
  lra.
Qed.

End TechnicalDepth.

(** ** Activity score *)

Section Activity.

Lemma score_activity_eq (profile_data : ProfileData) :
  _score_activity profile_data = Ok (activity_value profile_data).
Proof. reflexivity. Qed.

Lemma min_num_Qmin (a b : Q) : (min_num a b == Qmin a b)%Q.
Proof.
  unfold min_num. destruct (Qle_bool a b) eqn:Hle.
  - apply Qle_bool_iff in Hle. symmetry. by apply Q.min_l.
  - assert (Hlt : (b <= a)%Q).
    { apply Qnot_lt_le. intros Hlt. apply Qlt_le_weak in Hlt.
      apply Qle_bool_iff in Hlt. congruence. }
    symmetry. by apply Q.min_r.
Qed.

Lemma min_num_range (x : Q) :
  (0 <= x)%Q -> (0 <= min_num 100 x <= 100)%Q.
Proof.
  intros Hx. unfold min_num. destruct (Qle_bool 100 x) eqn:Hle.
  - lra.
  - split; [exact Hx|]. apply Qnot_lt_le. intros Hlt.
    apply Qlt_le_weak in Hlt. apply Qle_bool_iff in Hlt. congruence.
Qed.

Lemma commit_bonus_of_range (n : Z) : 10 <= commit_bonus_of n <= 40.
Proof.
  unfold commit_bonus_of.
  destruct (1000 <? n), (500 <? n), (100 <? n); lia.
Qed.

Lemma activity_value_range (profile_data : ProfileData) :
  let ca := default no_commit_activity (commit_activity profile_data) in
  (0 <= default 0%Q (consistency_score ca))%Q ->
  (0 <= activity_value profile_data <= 100)%Q.
Proof.
  intros ca Hc. unfold activity_value. fold ca.
  apply min_num_range.
  pose proof (commit_bonus_of_range (default 0 (total_commits ca)))
    as [Hb _].
  rewrite Zle_Qle in Hb. change (inject_Z 10) with 10%Q in Hb. lra.
Qed.

End Activity.

(** ** The aggregate *)

Section Aggregate.

Lemma calculate_score_eq (self : ScoringEngine) (profile_data : ProfileData) :
  calculate_score self profile_data
  = assemble self
      (Spec.score_documentation (default [] (repositories profile_data)))
      (Spec.score_technical_depth (default [] (repositories profile_data)))
      (activity_value profile_data).
Proof.
  unfold calculate_score.
  rewrite score_documentation_eq, score_technical_depth_eq,
    score_activity_eq.
  reflexivity.
Qed.

Lemma weights_documentation :
  WEIGHTS new_engine !! "documentation"%string = Some 0.30%Q.
Proof. vm_compute. reflexivity. Qed.

Lemma weights_technical_depth :
  WEIGHTS new_engine !! "technical_depth"%string = Some 0.40%Q.
Proof. vm_compute. reflexivity. Qed.

Lemma weights_activity :
  WEIGHTS new_engine !! "activity"%string = Some 0.30%Q.
Proof. vm_compute. reflexivity. Qed.

Lemma assemble_new_engine (d t a : Q) :
  exists r,
    assemble new_engine d t a = Ok r
    /\ total_score r = round (d * 0.30 + t * 0.40 + a * 0.30)%Q 2
    /\ documentation_score r = round d 2
    /\ technical_depth_score r = round t 2
    /\ activity_score r = round a 2.
Proof.
  unfold assemble.
  rewrite weights_documentation, weights_technical_depth, weights_activity.
  cbn [subscript mbind PyResult_bind bind mret PyResult_ret].
  eexists. split; [reflexivity|]. cbn [total_score documentation_score
    technical_depth_score activity_score]. auto.
Qed.

End Aggregate.

(** * The claims *)

Lemma valid_profile_consistency (profile_data : ProfileData) :
  Spec.valid_profile profile_data = true ->
  let ca := default no_commit_activity (commit_activity profile_data) in
  (0 <= default 0%Q (consistency_score ca) <= 100)%Q.
Proof.
  intros Hv. unfold Spec.valid_profile in Hv. cbv zeta in *.
  repeat (apply andb_prop in Hv as [Hv ?]).
  split; by apply Qle_bool_iff.
Qed.

Lemma weighted_sum_range (d t a : Q) :
  (0 <= d <= 100)%Q -> (0 <= t <= 100)%Q -> (0 <= a <= 100)%Q ->
  (0 <= d * 0.30 + t * 0.40 + a * 0.30 <= 100)%Q.
Proof. intros [? ?] [? ?] [? ?]. split; lra. Qed.

(** C1. For every structurally valid [profile_data] (non-negative
    [readme_length], [stars], [forks] and [total_commits], and a
    [consistency_score] within [0, 100]), [calculate_score] returns, and each
    of [total_score], [documentation_score], [technical_depth_score] and
    [activity_score] lies in the closed interval [0, 100]. *)
Theorem calculate_score_in_range (profile_data : ProfileData) :
  Spec.valid_profile profile_data = true ->
  exists r,
    calculate_score new_engine profile_data = Ok r
    /\ (0 <= total_score r <= 100)%Q
    /\ (0 <= documentation_score r <= 100)%Q
    /\ (0 <= technical_depth_score r <= 100)%Q
    /\ (0 <= activity_score r <= 100)%Q.
Proof.
  intros Hv. apply valid_profile_consistency in Hv as [Hc _].
  rewrite calculate_score_eq.
  set (repos := default [] (repositories profile_data)).
  pose proof (score_documentation_range repos) as Hd.
  pose proof (score_technical_depth_range repos) as Ht.
  pose proof (activity_value_range profile_data Hc) as Ha.
  destruct (assemble_new_engine (Spec.score_documentation repos)
              (Spec.score_technical_depth repos)
              (activity_value profile_data))
    as (r & Hr & Htot & Hdoc & Htech & Hact).
  exists r. split; [exact Hr|].
  rewrite Htot, Hdoc, Htech, Hact.
  split; [|split; [|split]]; apply round_range; try assumption.
  by apply weighted_sum_range.
Qed.

Lemma calculate_score_in_range_witness :
  exists r,
    calculate_score new_engine sample_profile = Ok r
    /\ (0 <= total_score r <= 100)%Q
    /\ (0 <= documentation_score r <= 100)%Q
    /\ (0 <= technical_depth_score r <= 100)%Q
    /\ (0 <= activity_score r <= 100)%Q.
Proof. apply calculate_score_in_range. reflexivity. Defined.

(** C3. [_score_documentation] gives each repository a base of 100, 75, 50
    or 25 by README length (> 1000, > 500, > 100, otherwise), adds 10 for a
    non-empty description, clamps at 100 and returns the arithmetic mean of
    the clamped values; with zero repositories (absent or empty) it
    returns 0. *)
Theorem score_documentation_spec (profile_data : ProfileData) :
  _score_documentation profile_data
  = Ok (Spec.score_documentation (default [] (repositories profile_data)))
  /\ _score_documentation
       {| repositories := None;
          commit_activity := commit_activity profile_data |} = Ok 0%Q
  /\ _score_documentation
       {| repositories := Some [];
          commit_activity := commit_activity profile_data |} = Ok 0%Q.
Proof.
  split; [apply score_documentation_eq|]. split; reflexivity.
Qed.

(** C4. [_score_technical_depth] returns
    [0.4 * language_score + 0.6 * complexity_score] with
    [language_score = min(100, 20 * (number of distinct non-empty languages))]
    and [complexity_score = min(100, S // max(1, n))], [S] the sum of the
    star-tier and fork-tier contributions of the [n] repositories and [//]
    integer floor division. *)
Theorem score_technical_depth_spec (profile_data : ProfileData) :
  _score_technical_depth profile_data
  = Ok (Spec.score_technical_depth
          (default [] (repositories profile_data))).
Proof. apply score_technical_depth_eq. Qed.

(** Floor division is observable: two repositories contributing 5 and 10
    give a complexity of 7, where real division would give 7.5. *)
Example floor_division_observable :
  Spec.complexity_score [repo_bare; repo_starred] = 7
  /\ (Spec.complexity_score_real_division [repo_bare; repo_starred]
      == 15 # 2)%Q
  /\ returns (_score_technical_depth
                {| repositories := Some [repo_bare; repo_starred];
                   commit_activity := None |}) (42 # 10).
Proof. split; [reflexivity|]. split; reflexivity. Qed.

(** C5. When the [commit_activity] record is absent, or its
    [consistency_score] and [total_commits] are 0, [_score_activity] returns
    exactly 10. In general the commit-volume bonus is 40 above 1000 commits,
    30 above 500, 20 above 100 and 10 otherwise, so it is never below 10,
    and the result is [min(100, consistency_score * 0.7 + bonus)]. *)
Theorem score_activity_spec (profile_data : ProfileData) :
  let ca := default no_commit_activity (commit_activity profile_data) in
  let c := default 0%Q (consistency_score ca) in
  let n := default 0 (total_commits ca) in
  let bonus := commit_bonus_of n in
  (n > 1000 -> bonus = 40)
  /\ (500 < n <= 1000 -> bonus = 30)
  /\ (100 < n <= 500 -> bonus = 20)
  /\ (n <= 100 -> bonus = 10)
  /\ 10 <= bonus
  /\ returns (_score_activity profile_data)
             (Qmin 100 (c * 0.7 + inject_Z bonus))
  /\ (commit_activity profile_data = None ->
      returns (_score_activity profile_data) 10)
  /\ ((c == 0)%Q -> n = 0 -> returns (_score_activity profile_data) 10).
Proof.
  intros ca c n bonus.
  assert (Hzero : (c == 0)%Q -> n = 0 ->
                  returns (_score_activity profile_data) 10).
  { intros Hc Hn. rewrite score_activity_eq. unfold returns, activity_value.
    fold ca. fold c. fold n. rewrite Hn, min_num_Qmin.
    change (inject_Z (commit_bonus_of 0)) with 10%Q.
    rewrite Hc. reflexivity. }
  repeat split.
  - intros Hn. subst bonus. unfold commit_bonus_of.
    destruct (Z.ltb_spec 1000 n); lia.
  - intros Hn. subst bonus. unfold commit_bonus_of.
    destruct (Z.ltb_spec 1000 n), (Z.ltb_spec 500 n); lia.
  - intros Hn. subst bonus. unfold commit_bonus_of.
    destruct (Z.ltb_spec 1000 n), (Z.ltb_spec 500 n), (Z.ltb_spec 100 n);
      lia.
  - intros Hn. subst bonus. unfold commit_bonus_of.
    destruct (Z.ltb_spec 1000 n), (Z.ltb_spec 500 n), (Z.ltb_spec 100 n);
      lia.
  - apply commit_bonus_of_range.
  - rewrite score_activity_eq. unfold returns, activity_value.
    apply min_num_Qmin.
  - intros Hnone. apply Hzero.
    + subst c ca. rewrite Hnone. reflexivity.
    + subst n ca. rewrite Hnone. reflexivity.
  - exact Hzero.
Qed.

Lemma score_activity_spec_witness :
  returns (_score_activity empty_profile) 10
  /\ returns (_score_activity idle_profile) 10.
Proof.
  split.
  - destruct (score_activity_spec empty_profile)
      as (_ & _ & _ & _ & _ & _ & Habsent & _).
    apply Habsent. reflexivity.
  - destruct (score_activity_spec idle_profile)
      as (_ & _ & _ & _ & _ & _ & _ & Hzero).
    apply Hzero; reflexivity.
Defined.

(** C6. For one repository with [readme_length] 1500, a non-empty
    description, language "Go", 5000 stars and 50 forks, [calculate_score]
    returns [documentation_score == 100] and
    [technical_depth_score == 32.0]. *)
Theorem single_go_repository (d : string) (ca : option CommitActivityRecord) :
  d ≠ EmptyString ->
  exists r,
    calculate_score new_engine
      {| repositories :=
           Some [ {| description := Some d;
                     readme_length := Some 1500;
                     language := Some "Go"%string;
                     stars := Some 5000;
                     forks := Some 50 |} ];
         commit_activity := ca |} = Ok r
    /\ (documentation_score r == 100)%Q
    /\ (technical_depth_score r == 32)%Q.
Proof.
  intros Hd.
  set (repo := {| description := Some d; readme_length := Some 1500;
                  language := Some "Go"%string; stars := Some 5000;
                  forks := Some 50 |}).
  assert (Hdv : (Spec.score_documentation [repo] == 100)%Q).
  { unfold Spec.score_documentation, Spec.repository_documentation.
    cbn [map]. unfold repo at 2. cbn [description Spec.has_nonempty].
    rewrite (bool_decide_eq_true_2 _ Hd). reflexivity. }
  assert (Htv : (Spec.score_technical_depth [repo] == 32)%Q)
    by reflexivity.
  rewrite calculate_score_eq.
  change (default [] (repositories
            {| repositories := Some [repo]; commit_activity := ca |}))
    with [repo].
  destruct (assemble_new_engine (Spec.score_documentation [repo])
              (Spec.score_technical_depth [repo])
              (activity_value
                 {| repositories := Some [repo]; commit_activity := ca |}))
    as (r & Hr & _ & Hdoc & Htech & _).
  exists r. split; [exact Hr|]. rewrite Hdoc, Htech.
  rewrite (round_comp _ _ Hdv 2%nat 2%nat eq_refl),
    (round_comp _ _ Htv 2%nat 2%nat eq_refl).
  split; reflexivity.
Qed.

Lemma single_go_repository_witness :
  exists r,
    calculate_score new_engine
      {| repositories := Some [repo_go]; commit_activity := None |} = Ok r
    /\ (documentation_score r == 100)%Q
    /\ (technical_depth_score r == 32)%Q.
Proof. apply single_go_repository. discriminate. Defined.

(** ** Defaults for absent fields *)

Section Defaults.

Lemma has_nonempty_default (o : option string) :
  Spec.has_nonempty (Some (default EmptyString o)) = Spec.has_nonempty o.
Proof. destruct o as [s|]; reflexivity. Qed.

Lemma repository_documentation_defaults (repo : RepositoryRecord) :
  Spec.repository_documentation (Spec.repository_with_defaults repo)
  = Spec.repository_documentation repo.
Proof.
  unfold Spec.repository_documentation.
  cbn [Spec.repository_with_defaults description readme_length].
  by rewrite has_nonempty_default.
Qed.

Lemma repository_complexity_defaults (repo : RepositoryRecord) :
  Spec.repository_complexity (Spec.repository_with_defaults repo)
  = Spec.repository_complexity repo.
Proof. reflexivity. Qed.

Lemma added_languages_defaults (repos : list RepositoryRecord) :
  added_languages (map Spec.repository_with_defaults repos)
  = added_languages repos.
Proof.
  induction repos as [|repo repos IH]; [reflexivity|].
  cbn [map]. rewrite !added_languages_cons, IH.
  cbn [Spec.repository_with_defaults language].
  destruct (language repo) as [l|]; reflexivity.
Qed.

Lemma score_documentation_defaults (repos : list RepositoryRecord) :
  Spec.score_documentation (map Spec.repository_with_defaults repos)
  = Spec.score_documentation repos.
Proof.
  destruct repos as [|repo repos]; [reflexivity|].
  unfold Spec.score_documentation. cbn [map]. unfold Spec.mean.
  rewrite !Zsum_cons, repository_documentation_defaults.
  cbn [length]. rewrite !length_map, map_map.
  by rewrite (map_ext _ _ repository_documentation_defaults).
Qed.

Lemma score_technical_depth_defaults (repos : list RepositoryRecord) :
  Spec.score_technical_depth (map Spec.repository_with_defaults repos)
  = Spec.score_technical_depth repos.
Proof.
  unfold Spec.score_technical_depth, Spec.language_score,
    Spec.complexity_score, Spec.distinct_languages.
  fold (added_languages (map Spec.repository_with_defaults repos)).
  fold (added_languages repos).
  rewrite added_languages_defaults, length_map, map_map.
  by rewrite (map_ext _ _ repository_complexity_defaults).
Qed.

End Defaults.

(** C7. [calculate_score] returns normally on every input: each of the three
    sub-scorers returns, the weight lookups succeed, and absent
    [repositories], [commit_activity] or optional fields give the same
    result as the explicit empty sequence, zero and empty text. No division
    by a zero repository count is reached. *)
Theorem calculate_score_never_raises (profile_data : ProfileData) :
  (exists d, _score_documentation profile_data = Ok d)
  /\ (exists t, _score_technical_depth profile_data = Ok t)
  /\ (exists a, _score_activity profile_data = Ok a)
  /\ (exists r, calculate_score new_engine profile_data = Ok r)
  /\ (forall self : ScoringEngine,
        calculate_score self profile_data
        = calculate_score self (Spec.profile_with_defaults profile_data)).
Proof.
  split; [rewrite score_documentation_eq; eauto|].
  split; [rewrite score_technical_depth_eq; eauto|].
  split; [rewrite score_activity_eq; eauto|].
  split.
  - rewrite calculate_score_eq.
    match goal with
    | |- context [assemble _ ?x ?y ?z] =>
        destruct (assemble_new_engine x y z) as (r & Hr & _)
    end.
    eauto.
  - intros self. rewrite !calculate_score_eq.
    cbn [Spec.profile_with_defaults repositories default from_option id].
    rewrite score_documentation_defaults, score_technical_depth_defaults.
    reflexivity.
Qed.

(** ** Determinism *)

(** ** Order of the repositories *)

Section Order.

#[global] Instance Zsum_perm : Proper ((≡ₚ) ==> eq) Spec.Zsum.
Proof.
  intros l1 l2 Hp.
  induction Hp as [|x l1 l2 _ IH|x y l|l1 l2 l3 _ IH1 _ IH2].
  - reflexivity.
  - rewrite !Zsum_cons. by rewrite IH.
  - rewrite !Zsum_cons. lia.
  - by rewrite IH1.
Qed.

#[global] Instance score_documentation_perm :
  Proper ((≡ₚ) ==> eq) Spec.score_documentation.
Proof.
  intros l1 l2 Hp. unfold Spec.score_documentation.
  destruct l1 as [|x1 l1], l2 as [|x2 l2]; try reflexivity.
  - by apply Permutation_nil_cons in Hp.
  - symmetry in Hp. by apply Permutation_nil_cons in Hp.
  - unfold Spec.mean. rewrite !length_map.
    rewrite (Permutation_length Hp).
    by rewrite (Zsum_perm _ _ (Permutation_map
                                 Spec.repository_documentation Hp)).
Qed.

#[global] Instance added_languages_perm :
  Proper ((≡ₚ) ==> (≡ₚ)) added_languages.
Proof. intros l1 l2 Hp. unfold added_languages. by rewrite Hp. Qed.

#[global] Instance score_technical_depth_perm :
  Proper ((≡ₚ) ==> eq) Spec.score_technical_depth.
Proof.
  intros l1 l2 Hp.
  unfold Spec.score_technical_depth, Spec.language_score,
    Spec.complexity_score, Spec.distinct_languages.
  fold (added_languages l1). fold (added_languages l2).
  rewrite <- !size_list_to_set_remove_dups.
  rewrite (list_to_set_perm_L (C := gset string) _ _
             (added_languages_perm _ _ Hp)).
  rewrite (Permutation_length Hp).
  by rewrite (Zsum_perm _ _ (Permutation_map
                               Spec.repository_complexity Hp)).
Qed.

End Order.

(** C9. Scoring does not depend on the order of [repositories]: for every
    permutation of the list, [calculate_score] returns the same
    [ScoreBreakdown]. *)
Theorem calculate_score_order_insensitive (self : ScoringEngine)
    (repos repos' : list RepositoryRecord)
    (ca : option CommitActivityRecord) :
  repos ≡ₚ repos' ->
  calculate_score self
    {| repositories := Some repos; commit_activity := ca |}
  = calculate_score self
      {| repositories := Some repos'; commit_activity := ca |}.
Proof.
  intros Hp. rewrite !calculate_score_eq.
  cbn [repositories default from_option id].
  rewrite (score_documentation_perm _ _ Hp),
    (score_technical_depth_perm _ _ Hp).
  reflexivity.
Qed.

Lemma calculate_score_order_insensitive_witness :
  calculate_score new_engine
    {| repositories := Some [repo_go; repo_bare; repo_notes];
       commit_activity := None |}
  = calculate_score new_engine
      {| repositories := Some [repo_notes; repo_go; repo_bare];
         commit_activity := None |}.
Proof.
  apply calculate_score_order_insensitive.
  change [repo_notes; repo_go; repo_bare]
    with ([repo_notes] ++ [repo_go; repo_bare]).
  change [repo_go; repo_bare; repo_notes]
    with ([repo_go; repo_bare] ++ [repo_notes]).
  apply Permutation_app_comm.
Defined.

(** C10. With at least one repository, [documentation_score] is at least
    25: every repository contributes at least 25 to the mean, so the score
    is 0 only when there is no repository. *)
Theorem documentation_score_floor (profile_data : ProfileData) :
  default [] (repositories profile_data) ≠ [] ->
  exists d r,
    _score_documentation profile_data = Ok d
    /\ (25 <= d)%Q
    /\ calculate_score new_engine profile_data = Ok r
    /\ (25 <= documentation_score r)%Q.
Proof.
  intros Hne.
  rewrite calculate_score_eq, score_documentation_eq.
  set (repos := default [] (repositories profile_data)) in *.
  assert (Hd : (25 <= Spec.score_documentation repos)%Q).
  { destruct repos as [|repo repos]; [done|].
    unfold Spec.score_documentation.
    apply (mean_range 25 100); [done|].
    rewrite length_map. apply documentation_sum_range. }
  destruct (assemble_new_engine (Spec.score_documentation repos)
              (Spec.score_technical_depth repos)
              (activity_value profile_data))
    as (r & Hr & _ & Hdoc & _).
  exists (Spec.score_documentation repos), r.
  split; [reflexivity|]. split; [exact Hd|]. split; [exact Hr|].
  rewrite Hdoc. apply (round_lower 25). exact Hd.
Qed.

Lemma documentation_score_floor_witness :
  exists d r,
    _score_documentation thirds_profile = Ok d
    /\ (25 <= d)%Q
    /\ calculate_score new_engine thirds_profile = Ok r
    /\ (25 <= documentation_score r)%Q.
Proof. apply documentation_score_floor. discriminate. Defined.

(** * Further properties of the scoring engine *)

Section RoundingFacts.

Lemma round_half_even_le_floor_succ (x : Q) :
  round_half_even x <= Qfloor x + 1.
Proof.
  unfold round_half_even.
  destruct (_ ?= _)%Q; [destruct (Z.even _)|..]; lia.
Qed.

Lemma round_half_even_mono (x y : Q) :
  (x <= y)%Q -> round_half_even x <= round_half_even y.
Proof.
  intros Hxy. pose proof (Qfloor_resp_le _ _ Hxy) as Hf.
  destruct (Z.eq_dec (Qfloor x) (Qfloor y)) as [Heq | Hne].
  - unfold round_half_even. rewrite Heq.
    destruct (Qcompare_spec (x - inject_Z (Qfloor y)) (1 # 2));
      destruct (Qcompare_spec (y - inject_Z (Qfloor y)) (1 # 2));
      try destruct (Z.even (Qfloor y)); try lia; lra.
  - pose proof (round_half_even_le_floor_succ x).
    pose proof (round_half_even_floor_le y). lia.
Qed.

Lemma round_mono (x y : Q) (n : nat) :
  (x <= y)%Q -> (round x n <= round y n)%Q.
Proof.
  intros Hxy. unfold round.
  pose proof (pow10_pos n) as Hs.
  set (s := inject_Z (10 ^ Z.of_nat n)) in *.
  apply Qmult_le_compat_r.
  - rewrite <- Zle_Qle. apply round_half_even_mono.
    apply Qmult_le_compat_r; lra.
  - apply Qlt_le_weak, Qinv_lt_0_compat, Hs.
Qed.

End RoundingFacts.

Section EngineBounds.

Lemma assemble_new_engine_eq (d t a : Q) :
  assemble new_engine d t a
  = Ok {| total_score := round (d * 0.30 + t * 0.40 + a * 0.30)%Q 2;
          documentation_score := round d 2;
          technical_depth_score := round t 2;
          activity_score := round a 2;
          score_breakdown :=
            {[ "documentation"%string :=
                 {| score := round d 2; weight := 0.30%Q |};
               "technical_depth"%string :=
                 {| score := round t 2; weight := 0.40%Q |};
               "activity"%string :=
                 {| score := round a 2; weight := 0.30%Q |} ]} |}.
Proof.
  unfold assemble.
  rewrite weights_documentation, weights_technical_depth, weights_activity.
  reflexivity.
Qed.

Lemma complexity_sum_range (repos : list RepositoryRecord) :
  5 * Z.of_nat (length repos)
  <= Spec.Zsum (map Spec.repository_complexity repos)
  <= 50 * Z.of_nat (length repos).
Proof.
  induction repos as [|repo repos IH]; [simpl; lia|].
  pose proof (repository_complexity_range repo).
  cbn [map length]. rewrite Zsum_cons. lia.
Qed.

Lemma complexity_score_range (repos : list RepositoryRecord) :
  0 <= Spec.complexity_score repos <= 50
  /\ (repos ≠ [] -> 5 <= Spec.complexity_score repos).
Proof.
  unfold Spec.complexity_score.
  pose proof (complexity_sum_range repos) as [Hlo Hhi].
  set (S := Spec.Zsum (map Spec.repository_complexity repos)) in *.
  set (n := Z.of_nat (length repos)) in *.
  assert (Hn : 0 <= n) by (subst n; lia).
  assert (Hq : 0 <= S `div` Z.max 1 n <= 50).
  { split.
    - apply Z.div_pos; lia.
    - apply Z.div_le_upper_bound; lia. }
  split; [lia|]. intros Hne.
  assert (1 <= n) by (subst n; destruct repos; [done | simpl; lia]).
  assert (5 <= S `div` Z.max 1 n) by (apply Z.div_le_lower_bound; lia).
  lia.
Qed.

Lemma score_technical_depth_le_70 (repos : list RepositoryRecord) :
  (0 <= Spec.score_technical_depth repos <= 70)%Q
  /\ (repos ≠ [] -> 3 <= Spec.score_technical_depth repos)%Q.
Proof.
  unfold Spec.score_technical_depth.
  assert (Hl : 0 <= Spec.language_score repos <= 100)
    by (unfold Spec.language_score; lia).
  destruct (complexity_score_range repos) as [[Hc0 Hc1] Hc5].
  destruct Hl as [Hl0 Hl1].
  rewrite Zle_Qle in Hl0, Hl1, Hc0, Hc1.
  change (inject_Z 0) with 0%Q in *. change (inject_Z 100) with 100%Q in *.
  change (inject_Z 50) with 50%Q in *.
  split; [lra|]. intros Hne. specialize (Hc5 Hne).
  rewrite Zle_Qle in Hc5. change (inject_Z 5) with 5%Q in Hc5. lra.
Qed.

Lemma activity_value_at_least_10 (profile_data : ProfileData) :
  let ca := default no_commit_activity (commit_activity profile_data) in
  (0 <= default 0%Q (consistency_score ca))%Q ->
  (10 <= activity_value profile_data <= 100)%Q.
Proof.
  intros ca Hc. unfold activity_value. fold ca.
  pose proof (commit_bonus_of_range (default 0 (total_commits ca)))
    as [Hb _].
  rewrite Zle_Qle in Hb. change (inject_Z 10) with 10%Q in Hb.
  unfold min_num. destruct (Qle_bool 100 _) eqn:Hle; [lra|].
  split; [lra|]. apply Qnot_lt_le. intros Hlt.
  apply Qlt_le_weak in Hlt. apply Qle_bool_iff in Hlt. congruence.
Qed.

End EngineBounds.

(** X1. The [score_breakdown] of every result has exactly the three entries
    "documentation", "technical_depth" and "activity"; each echoes the
    rounded sub-score reported at top level, with the weights 0.30, 0.40
    and 0.30, which sum to 1. *)
Theorem score_breakdown_echoes_scores (profile_data : ProfileData) :
  exists r cd ct ca,
    calculate_score new_engine profile_data = Ok r
    /\ score_breakdown r !! "documentation"%string = Some cd
    /\ score_breakdown r !! "technical_depth"%string = Some ct
    /\ score_breakdown r !! "activity"%string = Some ca
    /\ score cd = documentation_score r
    /\ score ct = technical_depth_score r
    /\ score ca = activity_score r
    /\ weight cd = 0.30%Q /\ weight ct = 0.40%Q /\ weight ca = 0.30%Q
    /\ (weight cd + weight ct + weight ca == 1)%Q
    /\ size (score_breakdown r) = 3%nat.
Proof.
  rewrite calculate_score_eq, assemble_new_engine_eq.
  do 4 eexists. split; [reflexivity|].
  cbn [score_breakdown documentation_score technical_depth_score
       activity_score].
  split; [apply lookup_insert_eq|].
  split; [rewrite lookup_insert_ne by done; apply lookup_insert_eq|].
  split; [do 2 (rewrite lookup_insert_ne by done);
          apply lookup_singleton_eq|].
  cbn [score weight]. repeat (split; [reflexivity|]).
  rewrite !map_size_insert_None, map_size_singleton; [reflexivity|..].
  - by rewrite lookup_singleton_ne.
  - rewrite lookup_insert_ne by done. by rewrite lookup_singleton_ne.
Qed.

(** X2. The technical-depth sub-score never exceeds 70: a repository
    contributes at most 30 + 20 to the complexity sum, so the complexity
    component is at most 50 and its cap at 100 is never reached. *)
Theorem technical_depth_at_most_70 (profile_data : ProfileData) :
  exists t r,
    _score_technical_depth profile_data = Ok t
    /\ (0 <= t <= 70)%Q
    /\ calculate_score new_engine profile_data = Ok r
    /\ (technical_depth_score r <= 70)%Q.
Proof.
  rewrite calculate_score_eq, score_technical_depth_eq, assemble_new_engine_eq.
  set (repos := default [] (repositories profile_data)).
  destruct (score_technical_depth_le_70 repos) as [Ht _].
  do 2 eexists. split; [reflexivity|]. split; [exact Ht|].
  split; [reflexivity|]. cbn [technical_depth_score].
  apply (round_upper 70). apply Ht.
Qed.

(** X3. When [consistency_score] is not negative, [total_score] lies
    between 3 and 88: the activity sub-score is at least 10 and the
    technical-depth sub-score at most 70. With at least one repository it
    is at least 11.7. *)
Theorem total_score_between_3_and_88 (profile_data : ProfileData) :
  let ca := default no_commit_activity (commit_activity profile_data) in
  (0 <= default 0%Q (consistency_score ca))%Q ->
  exists r,
    calculate_score new_engine profile_data = Ok r
    /\ (3 <= total_score r <= 88)%Q
    /\ (default [] (repositories profile_data) ≠ [] ->
        (11.7 <= total_score r)%Q).
Proof.
  intros ca Hc.
  rewrite calculate_score_eq, assemble_new_engine_eq.
  set (repos := default [] (repositories profile_data)).
  pose proof (score_documentation_range repos) as Hd.
  destruct (score_technical_depth_le_70 repos) as [Ht Ht3].
  pose proof (activity_value_at_least_10 profile_data Hc) as Ha.
  eexists. split; [reflexivity|]. cbn [total_score].
  split; [split|].
  - apply (round_lower 3). change (inject_Z 3) with 3%Q. lra.
  - apply (round_upper 88). change (inject_Z 88) with 88%Q. lra.
  - intros Hne. specialize (Ht3 Hne).
    assert (Hd25 : (25 <= Spec.score_documentation repos)%Q).
    { destruct repos as [|repo repos']; [done|].
      unfold Spec.score_documentation.
      apply (mean_range 25 100); [done|].
      rewrite length_map. apply documentation_sum_range. }
    assert (Hr : (round 11.7 2 == 11.7)%Q) by reflexivity.
    rewrite <- Hr. apply round_mono. lra.
Qed.

Lemma total_score_between_3_and_88_witness :
  exists r,
    calculate_score new_engine best_profile = Ok r
    /\ (3 <= total_score r <= 88)%Q
    /\ (default [] (repositories best_profile) ≠ [] ->
        (11.7 <= total_score r)%Q).
Proof. apply total_score_between_3_and_88. vm_compute. discriminate. Defined.

(** Both bounds of X3 are attained. *)
Example total_score_bounds_attained :
  (exists r, calculate_score new_engine best_profile = Ok r
             /\ (total_score r == 88)%Q)
  /\ (exists r, calculate_score new_engine empty_profile = Ok r
                /\ (total_score r == 3)%Q).
Proof.
  split; vm_compute; eexists; (split; [reflexivity|]); reflexivity.
Qed.

Section Monotone.

Lemma readme_base_mono (a b : Z) :
  a <= b -> Spec.readme_base a <= Spec.readme_base b.
Proof. intros Hab. unfold Spec.readme_base. repeat case_bool_decide; lia. Qed.

Lemma star_tier_mono (a b : Z) :
  a <= b -> Spec.star_tier a <= Spec.star_tier b.
Proof. intros Hab. unfold Spec.star_tier. repeat case_bool_decide; lia. Qed.

Lemma fork_tier_mono (a b : Z) :
  a <= b -> Spec.fork_tier a <= Spec.fork_tier b.
Proof. intros Hab. unfold Spec.fork_tier. repeat case_bool_decide; lia. Qed.

Lemma no_worse_repository_spec (r r' : RepositoryRecord) :
  no_worse_repository r r' = true ->
  Spec.repository_documentation r <= Spec.repository_documentation r'
  /\ Spec.repository_complexity r <= Spec.repository_complexity r'
  /\ language r = language r'.
Proof.
  unfold no_worse_repository. intros H.
  repeat (apply andb_prop in H as [H ?]).
  repeat match goal with
         | H : (_ <=? _) = true |- _ => apply Z.leb_le in H
         | H : bool_decide _ = true |- _ => apply bool_decide_eq_true in H
         end.
  split; [|split; [|assumption]].
  - unfold Spec.repository_documentation.
    pose proof (readme_base_mono _ _ H) as Hb.
    rewrite <- !truthy_has_nonempty.
    destruct (truthy (description r)), (truthy (description r'));
      try discriminate; lia.
  - unfold Spec.repository_complexity.
    pose proof (star_tier_mono (default 0 (stars r))
                               (default 0 (stars r'))).
    pose proof (fork_tier_mono (default 0 (forks r))
                               (default 0 (forks r'))).
    lia.
Qed.

Lemma no_worse_repositories_spec (l l' : list RepositoryRecord) :
  all2 no_worse_repository l l' = true ->
  length l = length l'
  /\ Spec.Zsum (map Spec.repository_documentation l)
     <= Spec.Zsum (map Spec.repository_documentation l')
  /\ Spec.Zsum (map Spec.repository_complexity l)
     <= Spec.Zsum (map Spec.repository_complexity l')
  /\ omap language l = omap language l'.
Proof.
  revert l'. induction l as [|r l IH]; intros [|r' l'] H; try discriminate.
  - repeat split; reflexivity || lia.
  - cbn [all2] in H. apply andb_prop in H as [Hr Hl].
    destruct (no_worse_repository_spec _ _ Hr) as (Hd & Hc & Hlang).
    destruct (IH _ Hl) as (Hlen & Hsd & Hsc & Hom).
    cbn [map length omap list_omap]. rewrite !Zsum_cons, Hlang, Hom.
    repeat split; first [lia | reflexivity | by rewrite Hlen].
Qed.

Lemma score_documentation_mono (l l' : list RepositoryRecord) :
  all2 no_worse_repository l l' = true ->
  (Spec.score_documentation l <= Spec.score_documentation l')%Q.
Proof.
  intros H. destruct (no_worse_repositories_spec _ _ H) as (Hlen & Hsd & _).
  destruct l as [|r l], l' as [|r' l'];
    try (cbn [length] in Hlen; discriminate Hlen); [apply Qle_refl|].
  unfold Spec.score_documentation, Spec.mean. rewrite !length_map, Hlen.
  apply Qmult_le_compat_r; [by rewrite <- Zle_Qle|].
  apply Qinv_le_0_compat. change 0%Q with (inject_Z 0).
  rewrite <- Zle_Qle. lia.
Qed.

Lemma score_technical_depth_mono (l l' : list RepositoryRecord) :
  all2 no_worse_repository l l' = true ->
  (Spec.score_technical_depth l <= Spec.score_technical_depth l')%Q.
Proof.
  intros H.
  destruct (no_worse_repositories_spec _ _ H) as (Hlen & _ & Hsc & Hom).
  unfold Spec.score_technical_depth, Spec.language_score,
    Spec.complexity_score, Spec.distinct_languages.
  rewrite Hom, Hlen.
  assert (Hq : Spec.Zsum (map Spec.repository_complexity l)
               `div` Z.max 1 (Z.of_nat (length l'))
               <= Spec.Zsum (map Spec.repository_complexity l')
                  `div` Z.max 1 (Z.of_nat (length l')))
    by (apply Z.div_le_mono; lia).
  apply Z.min_le_compat_l with (p := 100) in Hq.
  rewrite Zle_Qle in Hq. lra.
Qed.

Lemma commit_bonus_of_mono (a b : Z) :
  a <= b -> commit_bonus_of a <= commit_bonus_of b.
Proof.
  intros Hab. unfold commit_bonus_of.
  destruct (Z.ltb_spec 1000 a), (Z.ltb_spec 500 a), (Z.ltb_spec 100 a),
    (Z.ltb_spec 1000 b), (Z.ltb_spec 500 b), (Z.ltb_spec 100 b); lia.
Qed.

Lemma Qle_bool_false (a b : Q) : Qle_bool a b = false -> (b < a)%Q.
Proof.
  intros H. apply Qnot_le_lt. intros Hle.
  apply Qle_bool_iff in Hle. congruence.
Qed.

Lemma min_num_mono (x y : Q) :
  (x <= y)%Q -> (min_num 100 x <= min_num 100 y)%Q.
Proof.
  intros Hxy. unfold min_num.
  destruct (Qle_bool 100 x) eqn:Hx, (Qle_bool 100 y) eqn:Hy;
    try (apply Qle_bool_iff in Hx); try (apply Qle_bool_false in Hx);
    try (apply Qle_bool_iff in Hy); try (apply Qle_bool_false in Hy); lra.
Qed.

Lemma activity_value_mono (p p' : ProfileData) :
  let ca := default no_commit_activity (commit_activity p) in
  let ca' := default no_commit_activity (commit_activity p') in
  (default 0%Q (consistency_score ca)
   <= default 0%Q (consistency_score ca'))%Q ->
  default 0 (total_commits ca) <= default 0 (total_commits ca') ->
  (activity_value p <= activity_value p')%Q.
Proof.
  intros ca ca' Hc Hn. unfold activity_value. fold ca. fold ca'.
  apply min_num_mono. apply commit_bonus_of_mono in Hn.
  rewrite Zle_Qle in Hn. lra.
Qed.

End Monotone.

(** X4. Scores are monotone in the inputs: when every repository keeps its
    language and has a README at least as long, a description if it had
    one, and at least as many stars and forks, and the consistency score
    and commit count do not decrease, none of the four reported scores
    decreases. *)
Theorem calculate_score_monotone (p p' : ProfileData) :
  no_worse_profile p p' = true ->
  exists r r',
    calculate_score new_engine p = Ok r
    /\ calculate_score new_engine p' = Ok r'
    /\ (documentation_score r <= documentation_score r')%Q
    /\ (technical_depth_score r <= technical_depth_score r')%Q
    /\ (activity_score r <= activity_score r')%Q
    /\ (total_score r <= total_score r')%Q.
Proof.
  unfold no_worse_profile. intros H.
  apply andb_prop in H as [H Hn]. apply andb_prop in H as [Hr Hc].
  apply Z.leb_le in Hn. apply Qle_bool_iff in Hc.
  pose proof (score_documentation_mono _ _ Hr) as Hd.
  pose proof (score_technical_depth_mono _ _ Hr) as Ht.
  pose proof (activity_value_mono p p' Hc Hn) as Ha.
  rewrite !calculate_score_eq, !assemble_new_engine_eq.
  do 2 eexists. split; [reflexivity|]. split; [reflexivity|].
  cbn [documentation_score technical_depth_score activity_score total_score].
  repeat split; apply round_mono; try assumption. lra.
Qed.

Lemma calculate_score_monotone_witness :
  exists r r',
    calculate_score new_engine sample_profile = Ok r
    /\ calculate_score new_engine sample_profile_grown = Ok r'
    /\ (documentation_score r <= documentation_score r')%Q
    /\ (technical_depth_score r <= technical_depth_score r')%Q
    /\ (activity_score r <= activity_score r')%Q
    /\ (total_score r <= total_score r')%Q.
Proof. apply calculate_score_monotone. reflexivity. Defined.

(** X5. Language diversity saturates at five: with five or more distinct
    non-empty languages the technical-depth sub-score is 40 plus six tenths
    of the complexity component, whatever further languages are present,
    and lies between 43 and 70. *)
Theorem technical_depth_saturates_at_five_languages
    (profile_data : ProfileData) :
  let repos := default [] (repositories profile_data) in
  (5 <= length (Spec.distinct_languages repos))%nat ->
  exists t,
    _score_technical_depth profile_data = Ok t
    /\ (t == 40 + 0.6 * inject_Z (Spec.complexity_score repos))%Q
    /\ (43 <= t <= 70)%Q.
Proof.
  intros repos Hfive. rewrite score_technical_depth_eq. fold repos.
  eexists. split; [reflexivity|].
  assert (Hne : repos ≠ []).
  { intros Hnil. rewrite Hnil in Hfive. cbn in Hfive. lia. }
  destruct (complexity_score_range repos) as [[Hc0 Hc1] Hc5].
  specialize (Hc5 Hne). rewrite Zle_Qle in Hc1, Hc5.
  change (inject_Z 50) with 50%Q in Hc1. change (inject_Z 5) with 5%Q in Hc5.
  unfold Spec.score_technical_depth.
  assert (Hl : Spec.language_score repos = 100)
    by (unfold Spec.language_score; lia).
  rewrite Hl. change (inject_Z 100) with 100%Q. split; [|split]; lra.
Qed.

Lemma technical_depth_saturates_at_five_languages_witness :
  exists t,
    _score_technical_depth best_profile = Ok t
    /\ (t == 40 + 0.6 * inject_Z
                   (Spec.complexity_score
                      (default [] (repositories best_profile))))%Q
    /\ (43 <= t <= 70)%Q.
Proof.
  apply technical_depth_saturates_at_five_languages. vm_compute. lia.
Defined.

Lemma score_color_and_class_agree_aux (score : Q) :
  (score <= 30)%Q ->
  get_score_color score = "red"%string
  /\ get_score_class score = "score-poor"%string.
Proof.
  intros H. unfold get_score_color, get_score_class.
  destruct (Qle_bool 75 score) eqn:H75;
    [apply Qle_bool_iff in H75; lra|].
  destruct (Qle_bool 50 score) eqn:H50;
    [apply Qle_bool_iff in H50; lra|].
  done.
Qed.

(** X7. The dashboard's colour and CSS class always name the same band:
    green and "score-excellent" from 75, orange and "score-good" from 50 to
    below 75, red and "score-poor" below 50. *)
Theorem score_color_and_class_agree (score : Q) :
  ((75 <= score)%Q ->
     get_score_color score = "green"%string
     /\ get_score_class score = "score-excellent"%string)
  /\ ((50 <= score)%Q -> (score < 75)%Q ->
     get_score_color score = "orange"%string
     /\ get_score_class score = "score-good"%string)
  /\ ((score < 50)%Q ->
     get_score_color score = "red"%string
     /\ get_score_class score = "score-poor"%string).
Proof.
  unfold get_score_color, get_score_class.
  destruct (Qle_bool 75 score) eqn:H75, (Qle_bool 50 score) eqn:H50;
    try (apply Qle_bool_iff in H75); try (apply Qle_bool_false in H75);
    try (apply Qle_bool_iff in H50); try (apply Qle_bool_false in H50);
    repeat split; intros; first [reflexivity | lra].
Qed.

Lemma score_color_and_class_agree_witness :
  (get_score_color 88 = "green"%string
   /\ get_score_class 88 = "score-excellent"%string)
  /\ (get_score_color 50 = "orange"%string
      /\ get_score_class 50 = "score-good"%string)
  /\ (get_score_color 3 = "red"%string
      /\ get_score_class 3 = "score-poor"%string).
Proof.
  destruct (score_color_and_class_agree 88) as (H1 & _ & _).
  destruct (score_color_and_class_agree 50) as (_ & H2 & _).
  destruct (score_color_and_class_agree 3) as (_ & _ & H3).
  split; [apply H1; lra|]. split; [apply H2; lra | apply H3; lra].
Defined.

(** X8. A profile without repositories has documentation and technical
    depth 0 and a total of at most 30, whatever its commit activity, so the
    dashboard always shows it red, as "score-poor". *)
Theorem no_repositories_shown_red (profile_data : ProfileData) :
  default [] (repositories profile_data) = [] ->
  exists r,
    calculate_score new_engine profile_data = Ok r
    /\ (documentation_score r == 0)%Q
    /\ (technical_depth_score r == 0)%Q
    /\ (total_score r <= 30)%Q
    /\ get_score_color (total_score r) = "red"%string
    /\ get_score_class (total_score r) = "score-poor"%string.
Proof.
  intros Hnil. rewrite calculate_score_eq, assemble_new_engine_eq, Hnil.
  eexists. split; [reflexivity|].
  cbn [total_score documentation_score technical_depth_score].
  assert (Ha : (activity_value profile_data <= 100)%Q).
  { unfold activity_value, min_num.
    destruct (Qle_bool 100 _) eqn:Hle; [lra|].
    apply Qle_bool_false in Hle. lra. }
  assert (Ht : (Spec.score_technical_depth [] == 0)%Q) by reflexivity.
  assert (Htot : (round (Spec.score_documentation [] * 0.30
                         + Spec.score_technical_depth [] * 0.40
                         + activity_value profile_data * 0.30) 2
                  <= 30)%Q).
  { apply (round_upper 30). change (inject_Z 30) with 30%Q.
    cbn [Spec.score_documentation]. lra. }
  split; [reflexivity|]. split; [reflexivity|]. split; [exact Htot|].
  destruct (score_color_and_class_agree_aux _ Htot) as [-> ->]. done.
Qed.

Lemma no_repositories_shown_red_witness :
  exists r,
    calculate_score new_engine empty_profile = Ok r
    /\ (documentation_score r == 0)%Q
    /\ (technical_depth_score r == 0)%Q
    /\ (total_score r <= 30)%Q
    /\ get_score_color (total_score r) = "red"%string
    /\ get_score_class (total_score r) = "score-poor"%string.
Proof. apply no_repositories_shown_red. reflexivity. Defined.

(** * Commit history analysis *)

Section CommitHistory.

Lemma occurrences_cons (k x : string) (l : list string) :
  occurrences k (x :: l)
  = (if decide (x = k) then 1 else 0) + occurrences k l.
Proof.
  unfold occurrences. rewrite filter_cons.
  destruct (decide (x = k)); cbn [length]; lia.
Qed.

Lemma occurrences_app (k : string) (l1 l2 : list string) :
  occurrences k (l1 ++ l2) = occurrences k l1 + occurrences k l2.
Proof. unfold occurrences. rewrite filter_app, length_app. lia. Qed.

Lemma occurrences_not_elem (k : string) (l : list string) :
  k ∉ l -> occurrences k l = 0.
Proof.
  induction l as [|x l IH]; intros Hk; [reflexivity|].
  rewrite occurrences_cons, IH by (intros ?; apply Hk; by right).
  destruct (decide (x = k)) as [-> | _]; [|reflexivity].
  exfalso. apply Hk. by left.
Qed.

Lemma occurrences_elem (k : string) (l : list string) :
  k ∈ l -> 1 <= occurrences k l.
Proof.
  induction l as [|x l IH]; intros Hk; [by apply elem_of_nil in Hk|].
  rewrite occurrences_cons.
  assert (0 <= occurrences k l) by (unfold occurrences; lia).
  destruct (decide (x = k)) as [-> | Hne]; [lia|].
  apply elem_of_cons in Hk as [-> | Hk]; [done|].
  specialize (IH Hk). lia.
Qed.

Lemma tally_app (l1 l2 : list string) (m m1 : gmap string Z) (k : string) :
  m1 !! k = tally l1 m k ->
  tally l2 m1 k = tally (l1 ++ l2) m k.
Proof.
  unfold tally. intros ->. rewrite occurrences_app.
  destruct (decide (k ∈ l1)) as [H1 | H1], (decide (k ∈ l2)) as [H2 | H2].
  - rewrite decide_True by (apply elem_of_app; tauto).
    cbn [default from_option id]. f_equal; lia.
  - rewrite decide_True by (apply elem_of_app; tauto).
    rewrite (occurrences_not_elem _ _ H2). f_equal; lia.
  - rewrite decide_True by (apply elem_of_app; tauto).
    rewrite (occurrences_not_elem _ _ H1). f_equal; lia.
  - rewrite decide_False; [done|].
    intros H. apply elem_of_app in H. tauto.
Qed.

Lemma date_failures_nil : date_failures [] = 0.
Proof. reflexivity. Qed.

Lemma tally_nil (m : gmap string Z) (k : string) : tally [] m k = m !! k.
Proof.
  unfold tally. rewrite decide_False; [done|]. apply not_elem_of_nil.
Qed.

Lemma commit_loop_spec (l : list string) (t : Z) (m : gmap string Z) :
  (fold_left commit_step l (t, m)).1 = t + Z.of_nat (length l)
  /\ forall k, (fold_left commit_step l (t, m)).2 !! k = tally l m k.
Proof.
  revert t m. induction l as [|x l IH]; intros t m.
  - cbn [fold_left fst snd length]. split; [lia|].
    intros k. by rewrite tally_nil.
  - cbn [fold_left commit_step].
    destruct (IH (t + 1)
                 (<[x := default 0 (m !! x) + 1]> m)) as [Ht Hm].
    split; [rewrite Ht; cbn [length]; lia|].
    intros k. rewrite Hm.
    change (x :: l) with ([x] ++ l). apply tally_app.
    unfold tally. destruct (decide (k = x)) as [-> | Hne].
    + rewrite lookup_insert_eq.
      rewrite decide_True by (by apply list_elem_of_singleton).
      rewrite occurrences_cons, decide_True by done. reflexivity.
    + rewrite lookup_insert_ne by done.
      rewrite decide_False; [done|].
      intros H. by apply list_elem_of_singleton in H.
Qed.

Lemma date_failures_cons (r : RepoCommits) (repos : list RepoCommits) :
  date_failures (r :: repos)
  = (if decide (stream_end r = RaisesOnDate) then 1 else 0)
    + date_failures repos.
Proof.
  unfold date_failures. rewrite filter_cons.
  destruct (decide (stream_end r = RaisesOnDate)); cbn [length]; lia.
Qed.

Lemma repo_commits_step_spec (r : RepoCommits) (t : Z)
    (m : gmap string Z) :
  repo_commits_step (t, m) r
  = (t + Z.of_nat (length (delivered r))
     + (if decide (stream_end r = RaisesOnDate) then 1 else 0),
     (fold_left commit_step (delivered r) (t, m)).2).
Proof.
  unfold repo_commits_step.
  destruct (commit_loop_spec (delivered r) t m) as [Ht _].
  destruct (fold_left commit_step (delivered r) (t, m)) as [t1 m1].
  cbn [fst snd] in *. subst t1.
  destruct (stream_end r);
    (rewrite decide_False by done) || (rewrite decide_True by done);
    f_equal; lia.
Qed.

Lemma repo_loop_spec (repos : list RepoCommits) (t : Z)
    (m : gmap string Z) :
  (fold_left repo_commits_step repos (t, m)).1
  = t + Z.of_nat (length (all_delivered repos)) + date_failures repos
  /\ forall k,
       (fold_left repo_commits_step repos (t, m)).2 !! k
       = tally (all_delivered repos) m k.
Proof.
  revert t m. induction repos as [|r repos IH]; intros t m.
  - cbn [fold_left fst snd]. rewrite date_failures_nil.
    change (all_delivered []) with (@nil string). cbn [length].
    split; [lia|]. intros k. by rewrite tally_nil.
  - cbn [fold_left]. rewrite repo_commits_step_spec.
    destruct (commit_loop_spec (delivered r) t m) as [_ Hm].
    match goal with
    | |- context [fold_left repo_commits_step repos (?t1, ?m1)] =>
        destruct (IH t1 m1) as [Ht' Hm']
    end.
    change (all_delivered (r :: repos))
      with (delivered r ++ all_delivered repos).
    rewrite date_failures_cons, length_app.
    split; [rewrite Ht'; lia|].
    intros k. rewrite Hm'. apply tally_app, Hm.
Qed.

Lemma tally_empty (l : list string) (k : string) :
  tally l ∅ k = if decide (k ∈ l) then Some (occurrences k l) else None.
Proof.
  unfold tally. rewrite lookup_empty.
  destruct (decide (k ∈ l)); [|done]. cbn [default from_option id].
  f_equal; lia.
Qed.

Lemma size_of_tally (l : list string) (m : gmap string Z) :
  (forall k, m !! k = tally l ∅ k) ->
  size m = length (remove_dups l).
Proof.
  intros Hm. rewrite <- size_list_to_set_remove_dups, <- size_dom.
  f_equal. apply set_eq. intros k.
  rewrite elem_of_dom, elem_of_list_to_set, Hm, tally_empty.
  destruct (decide (k ∈ l)) as [H | H].
  - split; [done | by eexists].
  - split; [by intros [? ?] | done].
Qed.

Lemma length_remove_dups_le (l : list string) :
  (length (remove_dups l) <= length l)%nat.
Proof.
  induction l as [|x l IH]; [done|]. cbn [remove_dups length].
  destruct (decide_rel elem_of x l); cbn [length]; lia.
Qed.

(** The result of an analysis whose repository listing succeeded. *)
Lemma analyze_commit_history_ok (today months_history : Z)
    (repos : list RepoCommits) :
  cutoff_date today months_history = Some (today - months_history * 30) ->
  let st := fold_left repo_commits_step repos (0, ∅) in
  _analyze_commit_history today months_history (Ok repos)
  = {| d_total_commits := st.1;
       d_active_months := Z.of_nat (size st.2);
       d_consistency_score :=
         min_num 100
           (if 0 <? months_history
            then (inject_Z (Z.of_nat (size st.2))
                  / inject_Z months_history * 100)%Q
            else 0%Q);
       d_commits_by_month := st.2;
       d_analysis_period_months := months_history |}.
Proof.
  intros Hcut st. unfold _analyze_commit_history. rewrite Hcut.
  cbn [mbind PyResult_bind bind]. fold st. destruct st as [t m].
  cbn [fst snd]. destruct (Z.ltb_spec 0 months_history) as [Hpos | Hle].
  - unfold truediv.
    destruct (Z.eqb_spec months_history 0) as [Hz | _]; [lia|].
    reflexivity.
  - reflexivity.
Qed.

Lemma cutoff_date_cases (today months_history : Z) :
  cutoff_date today months_history = None
  \/ cutoff_date today months_history = Some (today - months_history * 30).
Proof.
  unfold cutoff_date. cbv zeta.
  destruct (999999999 <? Z.abs (months_history * 30)); [by left|].
  destruct ((today - months_history * 30 <? 1)
            || (3652059 <? today - months_history * 30));
    [by left | by right].
Qed.

Lemma analyze_commit_history_overflow (today months_history : Z)
    (user_repos : PyResult (list RepoCommits)) :
  cutoff_date today months_history = None ->
  _analyze_commit_history today months_history user_repos
  = commit_history_fallback months_history.
Proof. intros Hcut. unfold _analyze_commit_history. by rewrite Hcut. Qed.

Lemma analyze_commit_history_raise (today months_history : Z)
    (e : PyError) :
  _analyze_commit_history today months_history (Raise e)
  = commit_history_fallback months_history.
Proof.
  unfold _analyze_commit_history.
  by destruct (cutoff_date today months_history).
Qed.

Lemma consistency_formula (a months_history : Z) :
  0 <= a ->
  let s := min_num 100
             (if 0 <? months_history
              then (inject_Z a / inject_Z months_history * 100)%Q
              else 0%Q) in
  (0 <= s <= 100)%Q
  /\ (months_history <= 0 -> (s == 0)%Q)
  /\ (0 < months_history -> months_history <= a -> (s == 100)%Q)
  /\ (a < months_history ->
      (s == inject_Z a / inject_Z months_history * 100)%Q).
Proof.
  intros Ha s. subst s.
  destruct (Z.ltb_spec 0 months_history) as [Hpos | Hle].
  - assert (Hq : (0 < inject_Z months_history)%Q)
      by (change 0%Q with (inject_Z 0); by rewrite <- Zlt_Qlt).
    assert (Hr : (0 <= inject_Z a / inject_Z months_history * 100)%Q).
    { apply Qmult_le_0_compat; [|lra].
      apply Qle_shift_div_l; [exact Hq|].
      rewrite Qmult_0_l. change 0%Q with (inject_Z 0).
      by rewrite <- Zle_Qle. }
    unfold min_num.
    destruct (Qle_bool 100 _) eqn:Hle;
      [apply Qle_bool_iff in Hle | apply Qle_bool_false in Hle].
    + split; [lra|]. split; [lia|]. split; [reflexivity|].
      intros Hlt. exfalso.
      assert (Hlt' : (inject_Z a / inject_Z months_history < 1)%Q).
      { apply Qlt_shift_div_r; [exact Hq|]. rewrite Qmult_1_l.
        by rewrite <- Zlt_Qlt. }
      lra.
    + split; [lra|]. split; [lia|]. split; [|reflexivity].
      intros _ Hge. exfalso.
      assert (Hge' : (1 <= inject_Z a / inject_Z months_history)%Q).
      { apply Qle_shift_div_l; [exact Hq|]. rewrite Qmult_1_l.
        by rewrite <- Zle_Qle. }
      lra.
  - change (min_num 100 0) with 0%Q.
    split; [lra|]. split; [reflexivity|]. split; intros; lia.
Qed.

Lemma fallback_consistency_formula (months_history : Z) :
  let d := commit_history_fallback months_history in
  (0 <= d_consistency_score d <= 100)%Q
  /\ (months_history <= 0 -> (d_consistency_score d == 0)%Q)
  /\ (0 < months_history -> months_history <= d_active_months d ->
      (d_consistency_score d == 100)%Q)
  /\ (d_active_months d < months_history ->
      (d_consistency_score d
       == inject_Z (d_active_months d) / inject_Z months_history * 100)%Q).
Proof.
  cbn [commit_history_fallback d_consistency_score d_active_months].
  split; [lra|]. split; [reflexivity|]. split; [lia|].
  intros _. change (inject_Z 0) with 0%Q. unfold Qdiv.
  by rewrite !Qmult_0_l.
Qed.

Lemma analyze_commit_history_formula (today months_history : Z)
    (user_repos : PyResult (list RepoCommits)) :
  let d := _analyze_commit_history today months_history user_repos in
  (0 <= d_consistency_score d <= 100)%Q
  /\ (months_history <= 0 -> (d_consistency_score d == 0)%Q)
  /\ (0 < months_history -> months_history <= d_active_months d ->
      (d_consistency_score d == 100)%Q)
  /\ (d_active_months d < months_history ->
      (d_consistency_score d
       == inject_Z (d_active_months d) / inject_Z months_history * 100)%Q).
Proof.
  intros d. subst d.
  destruct (cutoff_date_cases today months_history) as [Hcut | Hcut].
  { rewrite analyze_commit_history_overflow by done.
    apply fallback_consistency_formula. }
  destruct user_repos as [repos | e].
  2:{ rewrite analyze_commit_history_raise.
      apply fallback_consistency_formula. }
  rewrite analyze_commit_history_ok by done.
  cbn [d_consistency_score d_active_months].
  apply consistency_formula. lia.
Qed.

Lemma analyze_commit_history_total_nonneg (today months_history : Z)
    (user_repos : PyResult (list RepoCommits)) :
  0 <= d_total_commits
         (_analyze_commit_history today months_history user_repos).
Proof.
  destruct (cutoff_date_cases today months_history) as [Hcut | Hcut].
  { by rewrite analyze_commit_history_overflow. }
  destruct user_repos as [repos | e].
  2:{ by rewrite analyze_commit_history_raise. }
  rewrite analyze_commit_history_ok by done. cbn [d_total_commits].
  destruct (repo_loop_spec repos 0 ∅) as [-> _].
  unfold date_failures. lia.
Qed.

End CommitHistory.

(** X9. When the cutoff date is representable and listing the repositories
    succeeds, [total_commits] is the number of commits delivered plus one
    for every repository whose iteration stopped on an unreadable author
    date; [commits_by_month] holds exactly the months that occur, each with
    its number of occurrences; [active_months] is the number of distinct
    months, and it never exceeds [total_commits]. *)
Theorem analyze_commit_history_counts (today months_history : Z)
    (repos : list RepoCommits) :
  cutoff_date today months_history = Some (today - months_history * 30) ->
  let d := _analyze_commit_history today months_history (Ok repos) in
  let months := all_delivered repos in
  d_total_commits d = Z.of_nat (length months) + date_failures repos
  /\ (forall k,
        d_commits_by_month d !! k
        = if decide (k ∈ months) then Some (occurrences k months) else None)
  /\ (forall k v, d_commits_by_month d !! k = Some v -> 1 <= v)
  /\ d_active_months d = Z.of_nat (length (remove_dups months))
  /\ d_active_months d <= d_total_commits d
  /\ d_analysis_period_months d = months_history.
Proof.
  intros Hcut d months. subst d. rewrite analyze_commit_history_ok by done.
  destruct (repo_loop_spec repos 0 ∅) as [Ht Hm]. fold months in Ht, Hm.
  cbn [d_total_commits d_commits_by_month d_active_months
       d_analysis_period_months].
  assert (Hlook : forall k,
             (fold_left repo_commits_step repos (0, ∅)).2 !! k
             = if decide (k ∈ months) then Some (occurrences k months)
               else None)
    by (intros k; rewrite Hm; apply tally_empty).
  assert (Hsize : size (fold_left repo_commits_step repos (0, ∅)).2
                  = length (remove_dups months))
    by (apply size_of_tally, Hm).
  split; [rewrite Ht; lia|]. split; [exact Hlook|].
  split.
  { intros k v. rewrite Hlook.
    destruct (decide (k ∈ months)) as [Hin | _]; [|done].
    intros [= <-]. by apply occurrences_elem. }
  split; [by rewrite Hsize|]. split; [|reflexivity].
  rewrite Hsize, Ht. pose proof (length_remove_dups_le months).
  assert (0 <= date_failures repos) by (unfold date_failures; lia). lia.
Qed.

Lemma analyze_commit_history_counts_witness :
  let d := _analyze_commit_history 739000 12 (Ok sample_streams) in
  d_total_commits d
  = Z.of_nat (length (all_delivered sample_streams))
    + date_failures sample_streams
  /\ d_active_months d
     = Z.of_nat (length (remove_dups (all_delivered sample_streams)))
  /\ d_active_months d <= d_total_commits d.
Proof.
  destruct (analyze_commit_history_counts 739000 12 sample_streams)
    as (Ht & _ & _ & Ha & Hle & _); [reflexivity|].
  split; [exact Ht|]. split; [exact Ha | exact Hle].
Defined.

(** X10. The consistency score returned is always within [0, 100]. It is 0
    when [months_history] is not positive, 100 as soon as the number of
    active months reaches a positive [months_history], and
    [active_months / months_history * 100] otherwise. When the cutoff date
    is not representable or the repository listing raises, the result is
    the all-zero dictionary. *)
Theorem analyze_commit_history_consistency (today months_history : Z)
    (user_repos : PyResult (list RepoCommits)) :
  let d := _analyze_commit_history today months_history user_repos in
  (0 <= d_consistency_score d <= 100)%Q
  /\ (months_history <= 0 -> (d_consistency_score d == 0)%Q)
  /\ (0 < months_history -> months_history <= d_active_months d ->
      (d_consistency_score d == 100)%Q)
  /\ (d_active_months d < months_history ->
      (d_consistency_score d
       == inject_Z (d_active_months d) / inject_Z months_history * 100)%Q)
  /\ (forall e, user_repos = Raise e ->
      d = commit_history_fallback months_history)
  /\ (cutoff_date today months_history = None ->
      d = commit_history_fallback months_history).
Proof.
  intros d. subst d.
  destruct (analyze_commit_history_formula today months_history user_repos)
    as (H1 & H2 & H3 & H4).
  repeat (split; [assumption|]). split.
  - intros e ->. apply analyze_commit_history_raise.
  - apply analyze_commit_history_overflow.
Qed.

Lemma analyze_commit_history_consistency_witness :
  (d_consistency_score
     (_analyze_commit_history 739000 3 (Ok sample_streams)) == 100)%Q
  /\ (d_consistency_score
        (_analyze_commit_history 739000 12 (Ok sample_streams))
      == (4 # 12) * 100)%Q
  /\ (d_consistency_score
        (_analyze_commit_history 739000 0 (Ok sample_streams)) == 0)%Q
  /\ _analyze_commit_history 739000 30000 (Ok sample_streams)
     = commit_history_fallback 30000.
Proof.
  destruct (analyze_commit_history_consistency 739000 3 (Ok sample_streams))
    as (_ & _ & H100 & _).
  destruct (analyze_commit_history_consistency 739000 12
              (Ok sample_streams))
    as (_ & _ & _ & Hfrac & _).
  destruct (analyze_commit_history_consistency 739000 0 (Ok sample_streams))
    as (_ & H0 & _).
  destruct (analyze_commit_history_consistency 739000 30000
              (Ok sample_streams))
    as (_ & _ & _ & _ & _ & Hover).
  split; [apply H100; vm_compute; [reflexivity | discriminate]|].
  split; [rewrite Hfrac by (vm_compute; reflexivity); reflexivity|].
  split; [apply H0; lia|].
  apply Hover. reflexivity.
Defined.

(** * Repository extraction *)

Section Extraction.

Lemma insert_by_stars_perm (x : ApiRepository) (l : list ApiRepository) :
  insert_by_stars x l ≡ₚ x :: l.
Proof.
  induction l as [|y l IH]; [done|]. cbn [insert_by_stars].
  destruct (stargazers_count x <? stargazers_count y); [|done].
  rewrite IH. apply perm_swap.
Qed.

Lemma sorted_by_stars_perm (l : list ApiRepository) :
  sorted_by_stars l ≡ₚ l.
Proof.
  induction l as [|x l IH]; [done|]. cbn [sorted_by_stars foldr].
  fold (sorted_by_stars l). by rewrite insert_by_stars_perm, IH.
Qed.

Lemma insert_by_stars_descending (x : ApiRepository)
    (l : list ApiRepository) :
  descending l -> descending (insert_by_stars x l).
Proof.
  induction l as [|y l IH]; intros Hl; [by cbn|].
  cbn [insert_by_stars]. destruct Hl as [Hy Hl].
  destruct (Z.ltb_spec (stargazers_count x) (stargazers_count y))
    as [Hlt | Hge].
  - cbn [descending]. split; [|by apply IH].
    rewrite insert_by_stars_perm. constructor; [lia | exact Hy].
  - cbn [descending]. split; [|split; assumption].
    constructor; [lia|].
    eapply Forall_impl; [exact Hy|]. cbn. intros; lia.
Qed.

Lemma sorted_by_stars_descending (l : list ApiRepository) :
  descending (sorted_by_stars l).
Proof.
  induction l as [|x l IH]; [by cbn|]. cbn [sorted_by_stars foldr].
  by apply insert_by_stars_descending.
Qed.

Lemma descending_app (l1 l2 : list ApiRepository) :
  descending (l1 ++ l2) ->
  descending l1
  /\ forall a b, a ∈ l1 -> b ∈ l2 -> stargazers_count b <= stargazers_count a.
Proof.
  induction l1 as [|x l1 IH]; intros H.
  - split; [by cbn|]. intros a b Ha. by apply elem_of_nil in Ha.
  - cbn [app descending] in H. destruct H as [Hx H].
    destruct (IH H) as [Hd Hcross]. apply Forall_app in Hx as [Hx1 Hx2].
    split; [by split|].
    intros a b Ha Hb. apply elem_of_cons in Ha as [-> | Ha].
    + by apply (proj1 (Forall_forall _ _) Hx2).
    + by apply Hcross.
Qed.

Lemma descending_lookup (l : list ApiRepository) (i j : nat)
    (a b : ApiRepository) :
  descending l -> l !! i = Some a -> l !! j = Some b -> (i < j)%nat ->
  stargazers_count b <= stargazers_count a.
Proof.
  revert i j. induction l as [|x l IH]; intros i j Hd Hi Hj Hij;
    [by rewrite lookup_nil in Hi|].
  destruct Hd as [Hx Hd]. destruct i as [|i], j as [|j]; try lia.
  - cbn in Hi, Hj. injection Hi as <-.
    apply (proj1 (Forall_forall _ _) Hx).
    by eapply list_elem_of_lookup_2.
  - cbn in Hi, Hj. apply (IH i j); [done..|lia].
Qed.

Lemma slice_to_take {A} (stop : Z) (l : list A) :
  exists n, slice_to stop l = take n l
            /\ (0 <= stop -> n = Z.to_nat stop).
Proof.
  unfold slice_to. destruct (Z.leb_spec 0 stop).
  - eexists. split; [reflexivity | done].
  - eexists. split; [reflexivity | intros; lia].
Qed.

Lemma extract_loop_take (l : list ApiRepository) :
  exists n,
    extract_loop l = map repo_info_of (take n l)
    /\ (n <= length l)%nat
    /\ (Forall (fun r => attributes_raise r = false) l -> n = length l).
Proof.
  induction l as [|r l (n & Hn & Hle & Hall)].
  - exists 0%nat. split; [done|]. split; [done|]. done.
  - cbn [extract_loop]. destruct (attributes_raise r) eqn:Hr.
    + exists 0%nat. split; [done|]. split; [cbn; lia|].
      intros H. apply Forall_cons in H as [H _]. congruence.
    + exists (S n). split; [cbn; by rewrite Hn|]. split; [cbn; lia|].
      intros H. apply Forall_cons in H as [_ H]. cbn. by rewrite Hall.
Qed.

End Extraction.

(** X11. [_extract_repository_data] returns at most [max_repos]
    repositories when [max_repos] is not negative, and never more than were
    listed: exactly the smaller of the two numbers when no repository's
    attributes raise; it returns none when listing the repositories
    raises. *)
Theorem extract_repository_data_length (max_repos : Z)
    (listing : PyResult (list ApiRepository)) :
  0 <= max_repos ->
  Z.of_nat (length (_extract_repository_data max_repos listing))
  <= max_repos
  /\ (forall repos, listing = Ok repos ->
        (length (_extract_repository_data max_repos listing)
         <= length repos)%nat
        /\ (Forall (fun r => attributes_raise r = false) repos ->
            Z.of_nat (length (_extract_repository_data max_repos listing))
            = Z.min max_repos (Z.of_nat (length repos))))
  /\ (forall e, listing = Raise e ->
        _extract_repository_data max_repos listing = []).
Proof.
  intros Hmax.
  assert (Hok : forall repos,
             let n := length (_extract_repository_data max_repos
                                (Ok repos)) in
             Z.of_nat n <= Z.min max_repos (Z.of_nat (length repos))
             /\ (Forall (fun r => attributes_raise r = false) repos ->
                 Z.of_nat n = Z.min max_repos (Z.of_nat (length repos)))).
  { intros repos. cbn [_extract_repository_data]. cbv zeta.
    unfold slice_to. destruct (Z.leb_spec 0 max_repos); [|lia].
    set (l := take (Z.to_nat max_repos) (sorted_by_stars repos)).
    assert (Hl : Z.of_nat (length l)
                 = Z.min max_repos (Z.of_nat (length repos))).
    { subst l. rewrite length_take,
        (Permutation_length (sorted_by_stars_perm repos)). lia. }
    destruct (extract_loop_take l) as (n & -> & Hle & Hall).
    rewrite length_map, length_take. split; [lia|].
    intros Hrepos. rewrite Hall; [lia|]. subst l.
    apply Forall_take. by rewrite sorted_by_stars_perm. }
  destruct listing as [repos | e].
  - destruct (Hok repos) as [Hle Heq].
    split; [lia|]. split; [|done].
    intros ? [= <-]. split; [lia | exact Heq].
  - split; [cbn; lia|]. split; [done | reflexivity].
Qed.

Lemma extract_repository_data_length_witness :
  Z.of_nat (length (_extract_repository_data 3 (Ok sample_listing))) = 3.
Proof.
  destruct (extract_repository_data_length 3 (Ok sample_listing))
    as (_ & H & _); [lia|].
  destruct (H sample_listing eq_refl) as [_ Heq].
  rewrite Heq; [reflexivity|]. repeat constructor.
Defined.

(** X12. The repositories kept are the most starred ones: they are taken,
    in descending order of stars, from a rearrangement of the listing, and
    no repository left out has more stars than one that is kept. *)
Theorem extract_repository_data_keeps_most_starred (max_repos : Z)
    (repos : list ApiRepository) :
  exists kept dropped,
    _extract_repository_data max_repos (Ok repos) = map repo_info_of kept
    /\ repos ≡ₚ kept ++ dropped
    /\ (forall i j a b,
          kept !! i = Some a -> kept !! j = Some b -> (i < j)%nat ->
          stargazers_count b <= stargazers_count a)
    /\ (forall a b,
          a ∈ kept -> b ∈ dropped ->
          stargazers_count b <= stargazers_count a).
Proof.
  destruct (slice_to_take max_repos (sorted_by_stars repos)) as (n & Hn & _).
  destruct (extract_loop_take (take n (sorted_by_stars repos)))
    as (k & Hk & _ & _).
  rewrite take_take in Hk.
  set (m := (k `min` n)%nat) in Hk.
  exists (take m (sorted_by_stars repos)), (drop m (sorted_by_stars repos)).
  pose proof (sorted_by_stars_descending repos) as Hd.
  rewrite <- (take_drop m (sorted_by_stars repos)) in Hd.
  apply descending_app in Hd as [Hkept Hcross].
  split; [cbn [_extract_repository_data]; cbv zeta; by rewrite Hn, Hk|].
  split; [by rewrite take_drop, sorted_by_stars_perm|].
  split; [|exact Hcross].
  intros i j a b Hi Hj Hij. by apply (descending_lookup _ i j a b Hkept).
Qed.

(** X13. In every extracted repository [readme_length] is not negative and
    [readme_quality] holds exactly when it exceeds 500, which is exactly
    when the documentation scorer gives the repository a base of 75 or
    100; when the README cannot be fetched the length is 0 and the
    repository gets the lowest base, 25. *)
Theorem extracted_readme_facts (repo : ApiRepository) :
  let info := repo_info_of repo in
  let len := default 0 (readme_length (info_record info)) in
  0 <= len
  /\ (readme_quality info = true <-> 500 < len)
  /\ (readme_quality info = true <-> 75 <= Spec.readme_base len)
  /\ (forall e, readme_md repo = Raise e ->
        len = 0 /\ readme_quality info = false /\ Spec.readme_base len = 25)
  /\ stars (info_record info) = Some (stargazers_count repo)
  /\ forks (info_record info) = Some (forks_count repo).
Proof.
  intros info len. subst info len.
  cbn [repo_info_of info_record readme_length readme_quality default
       from_option id stars forks].
  set (n := Z.of_nat (String.length (_extract_readme repo))).
  assert (Hn : 0 <= n) by (subst n; lia).
  split; [exact Hn|]. split; [apply Z.ltb_lt|].
  split.
  { rewrite Z.ltb_lt. unfold Spec.readme_base.
    repeat case_bool_decide; lia. }
  split; [|done]. intros e He. subst n. unfold _extract_readme.
  rewrite He. done.
Qed.

Lemma extracted_readme_facts_witness :
  let info := repo_info_of (api_repo "b" 50 (Raise ZeroDivisionError)) in
  default 0 (readme_length (info_record info)) = 0
  /\ readme_quality info = false
  /\ Spec.readme_base (default 0 (readme_length (info_record info))) = 25.
Proof.
  destruct (extracted_readme_facts
              (api_repo "b" 50 (Raise ZeroDivisionError)))
    as (_ & _ & _ & H & _).
  apply (H ZeroDivisionError). reflexivity.
Defined.

(** * Extraction followed by scoring *)

(** X14. Whatever the GitHub client delivers, the profile assembled by
    [get_profile_data] is scored without an exception, with the total
    within [3, 88], documentation within [0, 100], technical depth within
    [0, 70] and activity within [10, 100]. When both the repository listing
    and the commit listing raise, the failure is not reported: the profile
    is scored 0, 0 and 10, for a total of exactly 3. *)
Theorem extracted_profile_is_scored (today max_repos months_history : Z)
    (listing : PyResult (list ApiRepository))
    (commit_listing : PyResult (list RepoCommits)) :
  let profile :=
    get_profile_data today max_repos months_history listing commit_listing in
  exists r,
    calculate_score new_engine profile = Ok r
    /\ (3 <= total_score r <= 88)%Q
    /\ (0 <= documentation_score r <= 100)%Q
    /\ (0 <= technical_depth_score r <= 70)%Q
    /\ (10 <= activity_score r <= 100)%Q
    /\ (forall e e',
          listing = Raise e -> commit_listing = Raise e' ->
          (total_score r == 3)%Q
          /\ (documentation_score r == 0)%Q
          /\ (technical_depth_score r == 0)%Q
          /\ (activity_score r == 10)%Q).
Proof.
  intros profile.
  rewrite calculate_score_eq, assemble_new_engine_eq.
  set (repos := default [] (repositories profile)).
  pose proof (score_documentation_range repos) as Hd.
  destruct (score_technical_depth_le_70 repos) as [Ht _].
  assert (Hc : (0 <= default 0%Q
                  (consistency_score
                     (default no_commit_activity
                        (commit_activity profile))))%Q).
  { subst profile.
    cbn [get_profile_data commit_activity default from_option id
         as_commit_activity consistency_score].
    apply (analyze_commit_history_formula today months_history
             commit_listing). }
  pose proof (activity_value_at_least_10 profile Hc) as Ha.
  eexists. split; [reflexivity|].
  cbn [total_score documentation_score technical_depth_score
       activity_score].
  split; [split|].
  { apply (round_lower 3). change (inject_Z 3) with 3%Q. lra. }
  { apply (round_upper 88). change (inject_Z 88) with 88%Q. lra. }
  split; [split|].
  { apply (round_lower 0). change (inject_Z 0) with 0%Q. lra. }
  { apply (round_upper 100). change (inject_Z 100) with 100%Q. lra. }
  split; [split|].
  { apply (round_lower 0). change (inject_Z 0) with 0%Q. lra. }
  { apply (round_upper 70). change (inject_Z 70) with 70%Q. lra. }
  split; [split|].
  { apply (round_lower 10). change (inject_Z 10) with 10%Q. lra. }
  { apply (round_upper 100). change (inject_Z 100) with 100%Q. lra. }
  intros e e' -> ->. subst repos profile.
  unfold activity_value.
  cbn [get_profile_data commit_activity repositories default from_option id
       _extract_repository_data map].
  rewrite analyze_commit_history_raise. done.
Qed.

(** * Username extraction *)

Section Regex.

Context {A : Type}.
Implicit Types (k : nat -> str -> option str -> option A).

Lemma star_from_inv (cls : char -> bool) (s : str) :
  forall pos (k : nat -> str -> option A) x,
    star_from cls pos s k = Some x ->
    exists u t,
      s = u ++ t /\ Forall (fun c => cls c = true) u
      /\ k (pos + length u)%nat t = Some x.
Proof.
  induction s as [|c s IH]; intros pos k x H.
  - exists [], []. cbn in H. by rewrite Nat.add_0_r.
  - cbn [star_from] in H. destruct (cls c) eqn:Hc.
    + destruct (star_from cls (S pos) s k) eqn:E.
      * injection H as ->. destruct (IH _ _ _ E) as (u & t & -> & Hu & Hk).
        exists (c :: u), t. split; [done|]. split; [by constructor|].
        cbn [length]. by rewrite Nat.add_succ_r.
      * exists [], (c :: s). by rewrite Nat.add_0_r.
    + exists [], (c :: s). by rewrite Nat.add_0_r.
Qed.

Lemma star_from_greedy (cls : char -> bool) (u t : str) :
  forall pos (k : nat -> str -> option A) x,
    Forall (fun c => cls c = true) u -> stops cls t = true ->
    k (pos + length u)%nat t = Some x ->
    star_from cls pos (u ++ t) k = Some x.
Proof.
  induction u as [|c u IH]; intros pos k x Hu Ht Hk.
  - cbn [app length] in *. rewrite Nat.add_0_r in Hk.
    destruct t as [|d t]; [done|]. cbn [star_from].
    cbn in Ht. apply negb_true_iff in Ht. by rewrite Ht.
  - apply Forall_cons in Hu as [Hc Hu]. cbn [app star_from]. rewrite Hc.
    rewrite (IH (S pos) k x); [done..|].
    cbn [length] in Hk. by rewrite Nat.add_succ_r in Hk.
Qed.

Lemma exec_cat (r1 r2 : regex) pos s g k :
  exec (Cat r1 r2) pos s g k
  = exec r1 pos s g (fun pos' s' g' => exec r2 pos' s' g' k).
Proof. reflexivity. Qed.

Lemma exec_lit_inv (l : string) pos s g k x :
  exec (lit l) pos s g k = Some x ->
  exists s', s = codes l ++ s' /\ k (pos + length (codes l))%nat s' g = Some x.
Proof.
  unfold lit. generalize (codes l) as cs. intros cs. revert pos s.
  induction cs as [|c cs IH]; intros pos s H.
  - exists s. by rewrite Nat.add_0_r.
  - cbn [map sequence foldr exec] in H. destruct s as [|c' s]; [done|].
    destruct (N.eqb_spec c' c) as [-> | _]; [|done].
    apply IH in H as (s' & -> & H). exists s'. split; [done|].
    cbn [length]. by rewrite Nat.add_succ_r.
Qed.

Lemma exec_lit_app (l : string) pos s g k :
  exec (lit l) pos (codes l ++ s) g k = k (pos + length (codes l))%nat s g.
Proof.
  unfold lit. generalize (codes l) as cs. intros cs. revert pos.
  induction cs as [|c cs IH]; intros pos.
  - cbn. by rewrite Nat.add_0_r.
  - cbn [map sequence foldr exec app]. rewrite N.eqb_refl.
    fold (sequence (map Lit cs)). rewrite IH. cbn [length].
    by rewrite Nat.add_succ_r.
Qed.

Lemma exec_opt_inv (r : regex) pos s g k x :
  exec (Opt r) pos s g k = Some x ->
  exec r pos s g k = Some x \/ k pos s g = Some x.
Proof.
  cbn [exec]. destruct (exec r pos s g k); [by left | by right].
Qed.

Lemma exec_plus_inv (cls : char -> bool) pos s g k x :
  exec (Plus cls) pos s g k = Some x ->
  exists u t,
    s = u ++ t /\ u ≠ [] /\ Forall (fun c => cls c = true) u
    /\ k (pos + length u)%nat t g = Some x.
Proof.
  cbn [exec]. destruct s as [|c s]; [done|].
  destruct (cls c) eqn:Hc; [|done]. intros H.
  apply star_from_inv in H as (u & t & -> & Hu & H).
  exists (c :: u), t. split; [done|]. split; [done|].
  split; [by constructor|]. cbn [length].
  by rewrite Nat.add_succ_r.
Qed.

Lemma exec_plus_greedy (cls : char -> bool) (u t : str) pos g k x :
  u ≠ [] -> Forall (fun c => cls c = true) u -> stops cls t = true ->
  k (pos + length u)%nat t g = Some x ->
  exec (Plus cls) pos (u ++ t) g k = Some x.
Proof.
  intros Hne Hu Ht Hk. destruct u as [|c u]; [done|].
  apply Forall_cons in Hu as [Hc Hu]. cbn [app exec]. rewrite Hc.
  apply star_from_greedy; [done..|].
  cbn [length] in Hk. by rewrite Nat.add_succ_r in Hk.
Qed.

Lemma exec_group_plus_inv (cls : char -> bool) pos s g k x :
  exec (Group1 (Plus cls)) pos s g k = Some x ->
  exists u t,
    s = u ++ t /\ u ≠ [] /\ Forall (fun c => cls c = true) u
    /\ k (pos + length u)%nat t (Some u) = Some x.
Proof.
  cbn [exec]. intros H.
  change (exec (Plus cls) pos s g
            (fun pos' s' _ => k pos' s' (Some (take (pos' - pos) s)))
          = Some x) in H.
  apply exec_plus_inv in H as (u & t & -> & Hne & Hu & H).
  exists u, t. split; [done|]. split; [done|]. split; [done|].
  replace (pos + length u - pos)%nat with (length u) in H by lia.
  by rewrite take_app_length in H.
Qed.

Lemma exec_group_plus_greedy (cls : char -> bool) (u t : str) pos g k x :
  u ≠ [] -> Forall (fun c => cls c = true) u -> stops cls t = true ->
  k (pos + length u)%nat t (Some u) = Some x ->
  exec (Group1 (Plus cls)) pos (u ++ t) g k = Some x.
Proof.
  intros Hne Hu Ht Hk.
  change (exec (Plus cls) pos (u ++ t) g
            (fun pos' s' _ =>
               k pos' s' (Some (take (pos' - pos) (u ++ t))))
          = Some x).
  apply exec_plus_greedy; [done..|].
  replace (pos + length u - pos)%nat with (length u) by lia.
  by rewrite take_app_length.
Qed.

Lemma exec_group_free (r : regex) :
  group_free r = true ->
  forall pos s g k x,
    exec r pos s g k = Some x ->
    exists pos' s', k pos' s' g = Some x.
Proof.
  induction r as [|c|cls|r1 IH1 r2 IH2|r IH|cls|cls|r IH| |];
    intros Hfree pos s g k x H; cbn [group_free] in Hfree.
  - by exists pos, s.
  - cbn [exec] in H. destruct s as [|c' s]; [done|].
    destruct (c' =? c)%N; [|done]. by exists (S pos), s.
  - cbn [exec] in H. destruct s as [|c' s]; [done|].
    destruct (cls c'); [|done]. by exists (S pos), s.
  - apply andb_true_iff in Hfree as [H1 H2]. rewrite exec_cat in H.
    apply (IH1 H1) in H as (pos' & s' & H).
    by apply (IH2 H2) in H.
  - apply exec_opt_inv in H as [H | H]; [by apply (IH Hfree) in H|].
    by exists pos, s.
  - cbn [exec] in H. apply star_from_inv in H as (u & t & _ & _ & H).
    by eexists _, _.
  - apply exec_plus_inv in H as (u & t & _ & _ & _ & H).
    by eexists _, _.
  - done.
  - cbn [exec] in H. destruct (pos =? 0)%nat; [|done]. by exists pos, s.
  - cbn [exec] in H. destruct s as [|c [|c' s]]; [by exists pos, [] | |done].
    destruct (c =? 10)%N; [|done]. by exists pos, [c].
Qed.

Lemma exec_cat_inv (r1 r2 : regex) pos s g
    (k : nat -> str -> option str -> option A) x :
  exec (Cat r1 r2) pos s g k = Some x ->
  exec r1 pos s g (fun pos' s' g' => exec r2 pos' s' g' k) = Some x.
Proof. done. Qed.

Lemma exec_empty_inv pos s g
    (k : nat -> str -> option str -> option A) x :
  exec Empty pos s g k = Some x -> k pos s g = Some x.
Proof. done. Qed.

Lemma exec_eol_inv pos s g
    (k : nat -> str -> option str -> option A) x :
  exec Eol pos s g k = Some x -> s = [] \/ s = [10%N].
Proof.
  cbn [exec]. destruct s as [|c [|c' s]]; [by left | |done].
  destruct (N.eqb_spec c 10) as [-> |]; [by right | done].
Qed.

End Regex.

Ltac exec_invert H :=
  repeat
    (cbn beta in H;
     lazymatch type of H with
     | exec (Cat _ _) _ _ _ _ = Some _ => apply exec_cat_inv in H
     | exec Empty _ _ _ _ = Some _ => apply exec_empty_inv in H
     | exec (lit _) _ _ _ _ = Some _ =>
         let s' := fresh "s" in apply exec_lit_inv in H as (s' & -> & H)
     | exec (Opt _) _ _ _ _ = Some _ => apply exec_opt_inv in H as [H | H]
     end).


Section Strip.

Lemma lstrip_head (s : str) (c : char) (s' : str) :
  lstrip s = c :: s' -> is_space c = false.
Proof.
  induction s as [|d s IH]; [done|]. cbn [lstrip].
  destruct (is_space d) eqn:Hd; [exact IH|]. by intros [= <- _].
Qed.

Lemma lstrip_nil_iff (s : str) :
  lstrip s = [] <-> Forall (fun c => is_space c = true) s.
Proof.
  induction s as [|d s IH]; [done|]. cbn [lstrip].
  destruct (is_space d) eqn:Hd.
  - rewrite IH. split; [by constructor|].
    intros H. by apply Forall_cons in H as [_ H].
  - split; [done|]. intros H. apply Forall_cons in H as [H _]. congruence.
Qed.

Lemma strip_last (s s' : str) (c : char) :
  strip s = s' ++ [c] -> is_space c = false.
Proof.
  unfold strip, rstrip. intros H.
  apply (f_equal (@rev char)) in H.
  rewrite rev_involutive, rev_unit in H. by apply lstrip_head in H.
Qed.

Lemma strip_nil_iff (s : str) :
  strip s = [] <-> Forall (fun c => is_space c = true) s.
Proof.
  rewrite <- lstrip_nil_iff. unfold strip, rstrip. split.
  - intros H. apply (f_equal (@rev char)) in H.
    rewrite rev_involutive in H. cbn [rev] in H.
    apply lstrip_nil_iff in H.
    destruct (lstrip s) as [|c s'] eqn:E; [done|].
    apply lstrip_head in E. apply Forall_rev in H.
    rewrite rev_involutive in H. apply Forall_cons in H as [H _].
    congruence.
  - by intros ->.
Qed.

Lemma username_char_not_space (c : char) :
  username_char c = true -> is_space c = false.
Proof.
  intros Hc. unfold is_space. apply bool_decide_eq_false. intros Hin.
  repeat (apply elem_of_cons in Hin as [-> | Hin]; [done|]).
  by apply elem_of_nil in Hin.
Qed.

End Strip.

Section Patterns.

Lemma span_exists (cls : char -> bool) (s : str) :
  exists u t,
    s = u ++ t /\ Forall (fun c => cls c = true) u /\ stops cls t = true.
Proof.
  induction s as [|c s (u & t & -> & Hu & Ht)].
  - by exists [], [].
  - destruct (cls c) eqn:Hc.
    + exists (c :: u), t. split; [done|]. split; [by constructor | done].
    + exists [], (c :: u ++ t). split; [done|]. split; [done|].
      cbn. by rewrite Hc.
Qed.

Lemma span_unique (cls : char -> bool) (u u' t t' : str) :
  Forall (fun c => cls c = true) u -> stops cls t = true ->
  Forall (fun c => cls c = true) u' -> stops cls t' = true ->
  u ++ t = u' ++ t' -> u = u'.
Proof.
  intros Hu Ht. revert u'.
  induction Hu as [|c u Hc Hu IH]; intros u' Hu' Ht' Heq.
  - destruct Hu' as [|c' u' Hc' _]; [done|]. cbn [app] in Heq. subst t.
    cbn in Ht. by rewrite Hc' in Ht.
  - destruct Hu' as [|c' u' Hc' Hu'].
    + cbn [app] in Heq. subst t'. cbn in Ht'. by rewrite Hc in Ht'.
    + injection Heq as <- Heq. f_equal. by apply IH.
Qed.

(** The end of the first two patterns: an optional slash, an optional
    query and the end of the input. *)
Lemma url_tail_inv pos t g x :
  exec (sequence [Opt (lit "/"); Opt (sequence [lit "?"; Star dot]); Eol]) pos t g
    (fun _ _ g' => Some g') = Some x ->
  x = g /\ stops username_char t = true.
Proof.
  intros H. split.
  - apply exec_group_free in H as (_ & _ & [= <-]); done.
  - cbn [sequence foldr] in H. exec_invert H; try done.
    all: apply exec_cat_inv, exec_eol_inv in H as [-> | ->]; done.
Qed.

Lemma exec_group_plus_last (cls : char -> bool) pos s g x :
  exec (Group1 (Plus cls)) pos s g
    (fun pos' s' g' => exec Empty pos' s' g' (fun _ _ g'' => Some g''))
  = Some x ->
  exists u t,
    s = u ++ t /\ u ≠ [] /\ Forall (fun c => cls c = true) u
    /\ stops cls t = true /\ x = Some u.
Proof.
  intros H. pose proof H as H'.
  apply exec_group_plus_inv in H' as (u0 & t0 & -> & Hne & Hu0 & _).
  destruct (span_exists cls t0) as (u1 & t1 & -> & Hu1 & Ht1).
  exists (u0 ++ u1), t1. rewrite <- app_assoc. split; [done|].
  split; [by destruct u0|]. split; [by apply Forall_app|].
  split; [done|].
  rewrite app_assoc in H.
  rewrite (exec_group_plus_greedy cls (u0 ++ u1) t1 pos g _
             (Some (u0 ++ u1))) in H; [by injection H| |by apply Forall_app
                                       |done|done].
  by destruct u0.
Qed.

End Patterns.

Ltac eval_codes :=
  repeat match goal with
         | |- context [codes ?l] =>
             let v := eval vm_compute in (codes l) in
             change (codes l) with v
         end.

Ltac eval_codes_in H :=
  repeat match type of H with
         | context [codes ?l] =>
             let v := eval vm_compute in (codes l) in
             change (codes l) with v in H
         end.

Ltac github_url_with sc h t :=
  exists sc, h, t;
  (split; [set_solver|]); (split; [set_solver|]);
  (split; [assumption|]); reflexivity.

Ltac solve_github_url t :=
  unfold github_url;
  first
    [ github_url_with (@nil char) (codes "github.com/") t
    | github_url_with (@nil char) (codes "www.github.com/") t
    | github_url_with (codes "http://") (codes "github.com/") t
    | github_url_with (codes "http://") (codes "www.github.com/") t
    | github_url_with (codes "https://") (codes "github.com/") t
    | github_url_with (codes "https://") (codes "www.github.com/") t ].

Section UrlPatterns.

Lemma url_patterns_sound (s : str) (x : option str) :
  first_match url_patterns s = Some x ->
  exists u, x = Some u /\ is_username u /\ github_url s u.
Proof.
  unfold url_patterns. cbn [first_match].
  destruct (re_match _ s) as [x1|] eqn:H1.
  { intros [= ->]. unfold re_match in H1. cbn [sequence foldr] in H1.
    exec_invert H1.
    all: apply exec_group_plus_inv in H1 as (u & t & -> & Hne & Hu & H1).
    all: apply url_tail_inv in H1 as [-> Ht].
    all: exists u; split; [done|]; split; [done|].
    all: solve_github_url t. }
  clear H1. destruct (re_match _ s) as [x2|] eqn:H2.
  { intros [= ->]. unfold re_match in H2. cbn [sequence foldr] in H2.
    exec_invert H2.
    all: apply exec_group_plus_inv in H2 as (u & t & -> & Hne & Hu & H2).
    all: apply url_tail_inv in H2 as [-> Ht].
    all: exists u; split; [done|]; split; [done|].
    all: solve_github_url t. }
  clear H2. destruct (re_match _ s) as [x3|] eqn:H3; [|done].
  intros [= ->]. unfold re_match in H3. cbn [sequence foldr] in H3.
  exec_invert H3.
  all: apply exec_group_plus_last in H3 as (u & t & -> & Hne & Hu & Ht & ->).
  all: exists u; split; [done|]; split; [done|].
  all: solve_github_url t.
Qed.

Lemma github_url_unique (s u u' : str) :
  is_username u -> is_username u' ->
  github_url s u -> github_url s u' -> u = u'.
Proof.
  intros [_ Hu] [_ Hu'] (sc & h & t & Hsc & Hh & Ht & ->)
    (sc' & h' & t' & Hsc' & Hh' & Ht' & Heq).
  unfold schemes, hosts in *.
  repeat (apply elem_of_cons in Hsc as [-> | Hsc]);
    [| | |by apply elem_of_nil in Hsc].
  all: repeat (apply elem_of_cons in Hh as [-> | Hh]);
    [| |by apply elem_of_nil in Hh].
  all: repeat (apply elem_of_cons in Hsc' as [-> | Hsc']);
    [| | |by apply elem_of_nil in Hsc'].
  all: repeat (apply elem_of_cons in Hh' as [-> | Hh']);
    [| |by apply elem_of_nil in Hh'].
  all: eval_codes_in Heq; cbn [app] in Heq.
  all: first [ discriminate Heq
             | (simplify_eq;
                by apply (span_unique username_char u u' t t')) ].
Qed.

Lemma url_patterns_match (s u : str) :
  is_username u -> github_url s u ->
  exists x, first_match url_patterns s = Some x.
Proof.
  intros [Hne Hu] (sc & h & t & Hsc & Hh & Ht & ->).
  unfold url_patterns. cbn [first_match].
  destruct (re_match _ _) as [x1|]; [by eexists|].
  destruct (re_match _ _) as [x2|]; [by eexists|].
  exists (Some u).
  unfold schemes, hosts in *.
  repeat (apply elem_of_cons in Hsc as [-> | Hsc]);
    [| | |by apply elem_of_nil in Hsc].
  all: repeat (apply elem_of_cons in Hh as [-> | Hh]);
    [| |by apply elem_of_nil in Hh].
  all: unfold re_match.
  all: remember (Group1 (Plus username_char)) as G eqn:HG.
  all: unfold lit; eval_codes.
  all: cbn [exec sequence foldr map app N.eqb Pos.eqb].
  all: subst G.
  all: by rewrite (exec_group_plus_greedy _ u t _ _ _ (Some u)).
Qed.

Lemma url_patterns_complete (s u : str) :
  is_username u -> github_url s u ->
  first_match url_patterns s = Some (Some u).
Proof.
  intros Hu Hurl. destruct (url_patterns_match s u Hu Hurl) as [x Hx].
  destruct (url_patterns_sound s x Hx) as (u' & -> & Hu' & Hurl').
  by rewrite Hx, (github_url_unique s u u').
Qed.

Lemma username_not_url (s u : str) :
  Forall (fun c => username_char c = true) s -> ~ github_url s u.
Proof.
  intros Hs (sc & h & t & _ & Hh & _ & ->).
  apply Forall_app in Hs as [_ Hs]. apply Forall_app in Hs as [Hs _].
  assert (Hdot : 46%N ∈ h).
  { unfold hosts in Hh.
    repeat (apply elem_of_cons in Hh as [-> | Hh]);
      [| |by apply elem_of_nil in Hh].
    all: eval_codes; set_solver. }
  by apply (proj1 (Forall_forall _ _) Hs) in Hdot.
Qed.

Lemma username_pattern_inv (s : str) (x : option str) :
  re_match username_pattern s = Some x ->
  exists u t, s = u ++ t /\ is_username u /\ (t = [] \/ t = [10%N]).
Proof.
  unfold re_match, username_pattern. cbn [sequence foldr]. intros H.
  change (exec (Plus username_char) 0 s None
            (fun pos' s' g' =>
               exec (Cat Eol Empty) pos' s' g' (fun _ _ g => Some g))
          = Some x) in H.
  apply exec_plus_inv in H as (u & t & -> & Hne & Hu & H).
  apply exec_cat_inv, exec_eol_inv in H. by exists u, t.
Qed.

Lemma username_pattern_match (u : str) :
  is_username u -> re_match username_pattern u = Some None.
Proof.
  intros [Hne Hu]. unfold re_match, username_pattern. cbn [sequence foldr].
  change (exec (Plus username_char) 0 u None
            (fun pos' s' g' =>
               exec (Cat Eol Empty) pos' s' g' (fun _ _ g => Some g))
          = Some None).
  rewrite <- (app_nil_r u).
  by apply (exec_plus_greedy username_char u []).
Qed.

Lemma lstrip_username (u : str) :
  Forall (fun c => username_char c = true) u -> lstrip u = u.
Proof.
  intros [|c u' Hc _]; [done|]. cbn [lstrip].
  by rewrite (username_char_not_space c Hc).
Qed.

Lemma strip_username (u : str) :
  Forall (fun c => username_char c = true) u -> strip u = u.
Proof.
  intros Hu. unfold strip, rstrip.
  rewrite (lstrip_username u Hu), lstrip_username, rev_involutive; [done|].
  by apply Forall_rev.
Qed.

End UrlPatterns.

(** X15. A value returned by [extract_username] is never [None]: it is a
    non-empty string over [[a-zA-Z0-9_-]], and it is either the whole
    stripped input or what follows [github.com/] in a stripped input that
    starts with an address of GitHub, up to the first character outside
    that alphabet. *)
Theorem extract_username_returns (input_str : str) (v : option str) :
  extract_username input_str = Returns v ->
  exists u,
    v = Some u /\ is_username u
    /\ (strip input_str = u \/ github_url (strip input_str) u).
Proof.
  unfold extract_username.
  destruct (bool_decide _ || bool_decide _); [done|]. cbv zeta.
  destruct (first_match url_patterns (strip input_str)) as [x|] eqn:Hurl.
  - intros [= <-].
    destruct (url_patterns_sound _ _ Hurl) as (u & -> & Hu & Hform).
    exists u. split; [done|]. split; [done | by right].
  - destruct (re_match username_pattern (strip input_str)) as [x|] eqn:Hp;
      [|done].
    intros [= <-]. exists (strip input_str). split; [done|].
    split; [|by left].
    apply username_pattern_inv in Hp as (u & t & Heq & Hu & [-> | ->]).
    + by rewrite Heq, app_nil_r.
    + by apply strip_last in Heq.
Qed.

Lemma extract_username_returns_witness :
  exists u,
    Some (codes "a_b") = Some u /\ is_username u
    /\ (strip (codes "  https://www.github.com/a_b/?tab=x ") = u
        \/ github_url (strip (codes "  https://www.github.com/a_b/?tab=x "))
             u).
Proof.
  apply (extract_username_returns
           (codes "  https://www.github.com/a_b/?tab=x ")).
  vm_compute. reflexivity.
Defined.

(** X16. When the stripped input starts with an address of GitHub, that is
    an optional [http://] or [https://], an optional [www.] and
    [github.com/], followed by a user name that ends at the end of the
    input or at a character outside [[a-zA-Z0-9_-]], that user name is
    returned, whatever follows it. *)
Theorem extract_username_of_url (input_str u : str) :
  is_username u -> github_url (strip input_str) u ->
  extract_username input_str = Returns (Some u).
Proof.
  intros Hu Hurl. unfold extract_username.
  destruct Hurl as (sc & h & t & Hsc & Hh & Ht & Heq).
  assert (Hne : strip input_str ≠ []).
  { rewrite Heq. unfold hosts in Hh.
    repeat (apply elem_of_cons in Hh as [-> | Hh]);
      [| |by apply elem_of_nil in Hh].
    all: by destruct sc. }
  assert (Hne' : input_str ≠ []) by (by intros ->).
  rewrite !bool_decide_eq_false_2 by done. cbn [orb]. cbv zeta.
  rewrite (url_patterns_complete (strip input_str) u Hu); [done|].
  by exists sc, h, t.
Qed.

Lemma extract_username_of_url_witness :
  extract_username (codes " http://github.com/octo-cat/repo/issues ")
  = Returns (Some (codes "octo-cat")).
Proof.
  apply extract_username_of_url.
  - split; [done|]. vm_compute. repeat constructor.
  - exists (codes "http://"), (codes "github.com/"), (codes "/repo/issues").
    split; [set_solver|]. split; [set_solver|]. split; reflexivity.
Defined.

(** X17. A non-empty string over [[a-zA-Z0-9_-]] is returned unchanged,
    also when the input surrounds it with whitespace; in particular a value
    that [extract_username] returns is returned again when it is passed
    back. *)
Theorem extract_username_plain (input_str u : str) :
  is_username u -> strip input_str = u ->
  extract_username input_str = Returns (Some u)
  /\ extract_username u = Returns (Some u).
Proof.
  intros Hu Hs.
  assert (Hplain : forall s, strip s = u ->
                             extract_username s = Returns (Some u)).
  { intros s Heq. unfold extract_username. rewrite Heq.
    assert (Hne : s ≠ []) by (intros ->; by destruct Hu as [Hu _]).
    rewrite !bool_decide_eq_false_2 by (done || apply Hu). cbn [orb].
    cbv zeta.
    destruct (first_match url_patterns u) as [x|] eqn:Hurl.
    { apply url_patterns_sound in Hurl as (u' & _ & _ & Hform).
      destruct (username_not_url u u' (proj2 Hu) Hform). }
    by rewrite username_pattern_match. }
  split; [by apply Hplain|]. apply Hplain, strip_username, Hu.
Qed.

Lemma extract_username_plain_witness :
  extract_username ([9%N; 8195%N] ++ codes "octocat-123" ++ [10%N])
  = Returns (Some (codes "octocat-123"))
  /\ extract_username (codes "octocat-123")
     = Returns (Some (codes "octocat-123")).
Proof.
  apply extract_username_plain.
  - split; [done|]. vm_compute. repeat constructor.
  - reflexivity.
Defined.

(** X18. [extract_username] raises [ValueError] with the message
    [Username or URL cannot be empty] exactly when the input is empty or
    all whitespace. Any other input it rejects is reported with
    [Invalid GitHub username or URL: ] followed by the stripped input,
    which then contains a character outside [[a-zA-Z0-9_-]] and does not
    start with an address of GitHub. *)
Theorem extract_username_raises (input_str : str) :
  (Forall (fun c => is_space c = true) input_str <->
   extract_username input_str
   = ValueError (codes "Username or URL cannot be empty"))
  /\ (forall message,
        extract_username input_str = ValueError message ->
        ~ Forall (fun c => is_space c = true) input_str ->
        message
        = codes "Invalid GitHub username or URL: " ++ strip input_str
        /\ Exists (fun c => username_char c = false) (strip input_str)
        /\ forall u, is_username u -> ~ github_url (strip input_str) u).
Proof.
  assert (Hempty : Forall (fun c => is_space c = true) input_str ->
                   extract_username input_str
                   = ValueError (codes "Username or URL cannot be empty")).
  { intros Hsp. unfold extract_username.
    apply strip_nil_iff in Hsp.
    destruct (bool_decide (input_str = [])); [done|]. cbn [orb].
    by rewrite bool_decide_eq_true_2. }
  assert (Hother : forall message,
             extract_username input_str = ValueError message ->
             ~ Forall (fun c => is_space c = true) input_str ->
             message
             = codes "Invalid GitHub username or URL: " ++ strip input_str
             /\ Exists (fun c => username_char c = false) (strip input_str)
             /\ forall u, is_username u -> ~ github_url (strip input_str) u).
  { intros message H Hsp. unfold extract_username in H.
    rewrite <- strip_nil_iff in Hsp.
    destruct (decide (input_str = [])) as [-> | Hne]; [by destruct Hsp|].
    rewrite !bool_decide_eq_false_2 in H by done. cbn [orb] in H.
    cbv zeta in H.
    destruct (first_match url_patterns (strip input_str)) eqn:Hurl; [done|].
    destruct (re_match username_pattern (strip input_str)) eqn:Hp; [done|].
    injection H as <-. split; [done|]. split.
    - destruct (decide (Forall (fun c => username_char c = true)
                                (strip input_str))) as [Hall | Hnot].
      { by rewrite username_pattern_match in Hp. }
      apply not_Forall_Exists in Hnot; [|intros c; apply _].
      eapply Exists_impl; [exact Hnot|]. cbn. intros c Hc.
      by destruct (username_char c).
    - intros u Hu Hform.
      by rewrite (url_patterns_complete _ u Hu Hform) in Hurl. }
  split; [|exact Hother]. split; [exact Hempty|].
  intros H. destruct (decide (Forall (fun c => is_space c = true) input_str))
    as [Hsp | Hsp]; [done|].
  destruct (Hother _ H Hsp) as [Hm _]. by vm_compute in Hm.
Qed.

Lemma extract_username_raises_witness :
  codes "Invalid GitHub username or URL: invalid@@@username"
  = codes "Invalid GitHub username or URL: "
    ++ strip (codes " invalid@@@username ")
  /\ Exists (fun c => username_char c = false)
       (strip (codes " invalid@@@username "))
  /\ forall u, is_username u ->
               ~ github_url (strip (codes " invalid@@@username ")) u.
Proof.
  destruct (extract_username_raises (codes " invalid@@@username "))
    as [_ H].
  apply H; [reflexivity|].
  intros Hall. apply Forall_cons in Hall as [_ Hall].
  apply Forall_cons in Hall as [Hall _]. discriminate Hall.
Defined.

(** * The engine on binary64 numbers *)

Section Binary64.

Lemma Zdigits2_log2 (p : positive) :
  Zdigits2 (Zpos p) = Z.log2 (Zpos p) + 1.
Proof.
  assert (Hsize : forall q, digits2_pos q = Pos.size q)
    by (induction q as [q IH|q IH|]; cbn; by rewrite ?IH).
  cbn [Zdigits2]. rewrite Hsize. destruct p as [q|q|]; cbn; lia.
Qed.

Lemma Zdigits2_le (m k : Z) :
  0 <= m -> 0 <= k -> m < 2 ^ k -> Zdigits2 m <= k.
Proof.
  intros Hm Hk Hlt. destruct m as [|p|p]; [done| |lia].
  rewrite Zdigits2_log2.
  assert (Z.log2 (Zpos p) < k) by (apply Z.log2_lt_pow2; lia). lia.
Qed.

Lemma fexp_le (e k : Z) :
  e <= k -> -1074 <= k - 53 -> fexp B64.prec B64.emax e <= k - 53.
Proof. unfold fexp, emin, B64.prec, B64.emax. lia. Qed.

Lemma shr_m_shr_1 (mrs : shr_record) :
  0 <= shr_m mrs -> shr_m (shr_1 mrs) = shr_m mrs / 2.
Proof.
  destruct mrs as [m r s]. cbn [shr_m]. intros Hm.
  destruct m as [|[p|p|]|p]; cbn [shr_1 shr_m]; try lia; try done.
  - rewrite Pos2Z.inj_xI. apply Z.div_unique with 1; lia.
  - rewrite Pos2Z.inj_xO. apply Z.div_unique with 0; lia.
Qed.

Lemma shr_m_iter (p : positive) :
  forall mrs : shr_record,
    0 <= shr_m mrs ->
    shr_m (SpecFloat.iter_pos shr_1 p mrs) = shr_m mrs / 2 ^ Zpos p.
Proof.
  assert (Hnn : forall mrs, 0 <= shr_m mrs -> 0 <= shr_m (shr_1 mrs)).
  { intros mrs H. rewrite shr_m_shr_1 by done. by apply Z.div_pos. }
  induction p as [p IH|p IH|]; intros mrs Hm; cbn [SpecFloat.iter_pos].
  - assert (H1 : 0 <= shr_m (shr_1 mrs)) by auto.
    assert (H2 : 0 <= shr_m (SpecFloat.iter_pos shr_1 p (shr_1 mrs)))
      by (rewrite IH by done; apply Z.div_pos; lia).
    rewrite IH, IH, shr_m_shr_1 by done.
    rewrite !Z.div_div by lia. f_equal.
    replace (Zpos p~1) with (1 + Zpos p + Zpos p) by lia.
    rewrite !Z.pow_add_r by lia. lia.
  - assert (H2 : 0 <= shr_m (SpecFloat.iter_pos shr_1 p mrs))
      by (rewrite IH by done; apply Z.div_pos; lia).
    rewrite IH, IH by done.
    rewrite !Z.div_div by lia. f_equal.
    replace (Zpos p~0) with (Zpos p + Zpos p) by lia.
    rewrite !Z.pow_add_r by lia. lia.
  - rewrite shr_m_shr_1 by done. done.
Qed.

Lemma shr_fexp_spec (m e : Z) (l : location) (K E : Z) :
  0 <= m < 2 ^ (K - e) -> e <= K -> e <= E -> K - 53 <= E ->
  -1074 <= K - 53 ->
  exists mrs e1,
    shr_fexp B64.prec B64.emax m e l = (mrs, e1)
    /\ 0 <= shr_m mrs < 2 ^ (K - e1) /\ e1 <= K /\ e1 <= E.
Proof.
  intros [Hm Hlt] HeK HeE HKE HK. unfold shr_fexp.
  assert (Hd : Zdigits2 m + e <= K).
  { pose proof (Zdigits2_le m (K - e) Hm ltac:(lia) Hlt). lia. }
  pose proof (fexp_le _ _ Hd HK) as Hf.
  set (f := fexp B64.prec B64.emax (Zdigits2 m + e)) in *.
  assert (Hrec : shr_m (shr_record_of_loc m l) = m)
    by (by destruct l as [|[| |]]).
  destruct (f - e) as [|p|p] eqn:Hn; cbn [shr].
  - eexists _, _. split; [reflexivity|]. rewrite Hrec. lia.
  - eexists _, _. split; [reflexivity|].
    rewrite shr_m_iter, Hrec by (rewrite Hrec; lia).
    assert (Hpow : 2 ^ (K - e) = 2 ^ (K - (e + Zpos p)) * 2 ^ Zpos p)
      by (rewrite <- Z.pow_add_r by lia; f_equal; lia).
    split; [|lia]. split; [apply Z.div_pos; lia|].
    apply Z.div_lt_upper_bound; [lia|]. lia.
  - eexists _, _. split; [reflexivity|]. rewrite Hrec. lia.
Qed.

Lemma round_nearest_even_le (m : Z) (l : location) :
  0 <= m -> 0 <= round_nearest_even m l <= m + 1.
Proof.
  intros Hm. destruct l as [|[| |]]; cbn [round_nearest_even];
    try destruct (Z.even m); lia.
Qed.

Lemma binary_round_aux_finite (s : bool) (m e : Z) (l : location) (K : Z) :
  0 <= m < 2 ^ (K - e) -> e <= K -> e <= 971 -> -1021 <= K <= 1000 ->
  B64.is_infinite (binary_round_aux B64.prec B64.emax s m e l) = false.
Proof.
  intros Hm HeK He HK. unfold binary_round_aux.
  destruct (shr_fexp_spec m e l K 971) as (mrs & e1 & -> & Hm1 & He1 & He1');
    [lia..|].
  set (m1 := round_nearest_even _ _).
  assert (Hm1' : 0 <= m1 < 2 ^ (K + 1 - e1)).
  { pose proof (round_nearest_even_le (shr_m mrs)
                  (loc_of_shr_record mrs) ltac:(lia)) as Hr.
    fold m1 in Hr. split; [lia|].
    replace (K + 1 - e1) with (1 + (K - e1)) by lia.
    rewrite Z.pow_add_r by lia. lia. }
  destruct (shr_fexp_spec m1 e1 loc_Exact (K + 1) 971)
    as (mrs2 & e2 & -> & _ & _ & He2); [lia..|].
  destruct (shr_m mrs2); [done| |done].
  unfold B64.emax, B64.prec. by destruct (Z.leb_spec e2 (1024 - 53)); [|lia].
Qed.

Lemma nearest_finite (a b : Z) :
  0 <= a -> 0 < b -> a < 128 * b ->
  B64.is_infinite (B64.nearest a b) = false.
Proof.
  intros Ha Hb Hab. unfold B64.nearest.
  destruct a as [|ma|ma]; [by destruct b | |lia].
  destruct b as [|mb|mb]; [lia| |lia]. cbn [B64.exact SFdiv xorb].
  unfold SFdiv_core_binary.
  set (e' := Z.min _ _).
  assert (He' : e' <= 0) by (subst e'; lia).
  replace (0 - 0 - e') with (- e') by lia.
  set (m' := match - e' with Z0 => _ | Zpos _ => _ | Zneg _ => _ end).
  assert (Hm' : m' = Zpos ma * 2 ^ (- e')).
  { subst m'. destruct (- e') as [|p|p] eqn:Hs; [lia| |lia].
    by rewrite Z.shiftl_mul_pow2. }
  destruct (Z.div_eucl m' (Zpos mb)) as [q r] eqn:Hdiv.
  assert (Hq : q = m' / Zpos mb) by (unfold Z.div; by rewrite Hdiv).
  apply (binary_round_aux_finite _ _ _ _ 7); [|lia..].
  rewrite Hq, Hm'. split; [apply Z.div_pos; lia|].
  apply Z.div_lt_upper_bound; [lia|].
  replace (7 - e') with (7 + - e') by lia. rewrite Z.pow_add_r by lia.
  assert (0 < 2 ^ (- e')) by (apply Z.pow_pos_nonneg; lia).
  change (2 ^ 7) with 128. nia.
Qed.

Lemma float_of_int_small (n : Z) :
  0 <= n <= 100 -> exists x, B64.float_of_int n = B64.Done x.
Proof.
  intros Hn.
  assert (Hall : forallb
                   (fun k => match B64.float_of_int (Z.of_nat k) with
                             | B64.Done _ => true
                             | B64.Raised _ => false
                             end) (seq 0 101) = true)
    by (vm_compute; reflexivity).
  pose proof (proj1 (forallb_forall _ _) Hall (Z.to_nat n)) as Hk.
  cbn beta in Hk. rewrite Z2Nat.id in Hk by lia.
  destruct (B64.float_of_int n) as [x|e]; [by exists x|].
  discriminate Hk. apply in_seq. lia.
Qed.

Lemma fmul_comm (x y : B64.float) : B64.fmul x y = B64.fmul y x.
Proof.
  unfold B64.fmul.
  destruct x as [sx|sx| |sx mx ex], y as [sy|sy| |sy my ey];
    cbn [SFmul]; try done; rewrite ?(xorb_comm sx sy); try done.
  by rewrite (Pos.mul_comm mx my), (Z.add_comm ex ey).
Qed.

Lemma readonly_ret {G A} (a : A) : B64.readonly (@B64.ret G A a).
Proof. by intros h. Qed.

Lemma readonly_pure {G A} (r : B64.Result A) :
  B64.readonly (@B64.pure G A r).
Proof. by intros h. Qed.

Lemma readonly_bind {G A B} (m : B64.Py G A) (k : A -> B64.Py G B) :
  B64.readonly m -> (forall a, B64.readonly (k a)) ->
  B64.readonly (B64.bind m k).
Proof.
  intros Hm Hk h. destruct (Hm h) as [Hsnd Hfst]. unfold B64.bind.
  split.
  - destruct (m h) as [[a|e] h1]; cbn in Hsnd; subst h1; [|done].
    apply Hk.
  - intros h' Hfp. specialize (Hfst h' Hfp).
    destruct (Hm h') as [Hsnd' _].
    destruct (m h) as [[a|e] h1], (m h') as [[a'|e'] h1'];
      cbn in *; subst; try done.
    + injection Hfst as ->. by apply Hk.
    + by injection Hfst as ->.
Qed.

Lemma readonly_self_WEIGHTS {G} : B64.readonly (@B64.self_WEIGHTS G).
Proof.
  intros h. split; [done|]. intros h' Hfp. unfold B64.self_WEIGHTS.
  cbn. f_equal. by injection Hfp.
Qed.

Lemma readonly_get_repositories {G} :
  B64.readonly (@B64.get_repositories G).
Proof.
  intros h. split; [done|]. intros h' Hfp. unfold B64.get_repositories.
  cbn. injection Hfp as _ Hp. by rewrite Hp.
Qed.

Lemma readonly_get_commit_activity {G} :
  B64.readonly (@B64.get_commit_activity G).
Proof.
  intros h. split; [done|]. intros h' Hfp. unfold B64.get_commit_activity.
  cbn. injection Hfp as _ Hp. by rewrite Hp.
Qed.

Ltac readonly_step :=
  first
    [ apply readonly_bind; [|intros ?]
    | apply readonly_ret
    | apply readonly_pure
    | apply readonly_self_WEIGHTS
    | apply readonly_get_repositories
    | apply readonly_get_commit_activity ].

Lemma readonly_score_documentation {G} :
  B64.readonly (@B64._score_documentation G).
Proof.
  unfold B64._score_documentation. readonly_step; [readonly_step|].
  destruct (fold_left doc_step _ _) as [score count].
  destruct (0 <? count); repeat readonly_step.
Qed.

Lemma readonly_score_technical_depth {G} :
  B64.readonly (@B64._score_technical_depth G).
Proof. unfold B64._score_technical_depth. repeat readonly_step. Qed.

Lemma readonly_score_activity {G} :
  B64.readonly (@B64._score_activity G).
Proof. unfold B64._score_activity. repeat readonly_step. Qed.

Lemma readonly_calculate_score {G} :
  B64.readonly (@B64.calculate_score G).
Proof.
  unfold B64.calculate_score.
  readonly_step; [apply readonly_score_documentation|].
  readonly_step; [apply readonly_score_technical_depth|].
  readonly_step; [apply readonly_score_activity|].
  repeat readonly_step.
Qed.

(** What the three sub-scorers return on a heap. *)
Lemma score_documentation_run {G} (h : B64.Heap G) :
  exists d fd,
    B64._score_documentation h = (B64.Done d, h)
    /\ B64.as_float d = B64.Done fd
    /\ (d = B64.PyInt 0 \/ d = B64.PyFloat fd).
Proof.
  unfold B64._score_documentation, B64.bind, B64.get_repositories.
  set (repos := default [] _). rewrite doc_loop_spec.
  pose proof (documentation_sum_range repos) as Hsum.
  rewrite !Z.add_0_l.
  destruct (Z.ltb_spec 0 (Z.of_nat (length repos))) as [Hpos | Hle].
  - unfold B64.pure, B64.int_truediv.
    destruct (Z.eqb_spec (Z.of_nat (length repos)) 0) as [?|_]; [lia|].
    rewrite nearest_finite by lia. cbn.
    eexists _, _. split; [reflexivity|]. split; [reflexivity | by right].
  - exists (B64.PyInt 0). eexists. split; [reflexivity|].
    split; [by vm_compute | by left].
Qed.

Lemma score_technical_depth_run {G} (h : B64.Heap G) :
  exists ft, B64._score_technical_depth h = (B64.Done (B64.PyFloat ft), h).
Proof.
  unfold B64._score_technical_depth, B64.bind, B64.get_repositories,
    B64.pure.
  set (repos := default [] _). rewrite language_loop_spec. cbn [B64.lift].
  rewrite complexity_loop_spec, Z.add_0_l.
  pose proof (complexity_sum_nonneg repos) as Hc.
  unfold floordiv.
  destruct (Z.eqb_spec (Z.max 1 (Z.of_nat (length repos))) 0) as [?|_];
    [lia|].
  cbn [B64.lift]. rewrite !min_int_Zmin.
  set (ls := Z.min 100 _). set (cs := Z.min 100 _).
  assert (Hls : 0 <= ls <= 100) by (subst ls; lia).
  assert (Hcs : 0 <= cs <= 100).
  { subst cs. assert (0 <= Spec.Zsum (map Spec.repository_complexity repos)
                           / Z.max 1 (Z.of_nat (length repos)))
      by (apply Z.div_pos; lia). lia. }
  destruct (float_of_int_small ls Hls) as [x Hx].
  destruct (float_of_int_small cs Hcs) as [y Hy].
  unfold B64.mul. cbn [B64.as_float]. rewrite Hx, Hy.
  cbn [B64.add B64.as_float]. by eexists.
Qed.

Lemma score_activity_run {G} (h : B64.Heap G) :
  B64.valid_consistency
    (default (B64.PyInt 0)
       (B64.consistency_score
          (default B64.no_commit_activity
             (B64.commit_activity (B64.profile_object h))))) = true ->
  exists a fa,
    B64._score_activity h = (B64.Done a, h)
    /\ B64.as_float a = B64.Done fa
    /\ (a = B64.PyInt 100 \/ a = B64.PyFloat fa).
Proof.
  unfold B64._score_activity, B64.bind, B64.get_commit_activity, B64.pure.
  set (ca := default B64.no_commit_activity _).
  set (c := default (B64.PyInt 0) _). intros Hv.
  assert (Hc : exists x, B64.as_float c = B64.Done x).
  { destruct c as [n|x]; [|by eexists]. cbn in Hv.
    apply float_of_int_small. lia. }
  destruct Hc as [x Hx].
  assert (Hmul : B64.mul c (B64.PyFloat (B64.nearest 7 10))
                 = B64.Done (B64.PyFloat
                               (SFmul B64.prec B64.emax x
                                  (B64.nearest 7 10)))).
  { unfold B64.mul. destruct c as [n|x']; cbn [B64.as_float] in *;
      [by rewrite Hx | by injection Hx as ->]. }
  rewrite Hmul.
  assert (Hb : exists y,
             B64.float_of_int
               (commit_bonus_of (default 0 (B64.total_commits ca)))
             = B64.Done y).
  { apply float_of_int_small. pose proof (commit_bonus_of_range
      (default 0 (B64.total_commits ca))). lia. }
  destruct Hb as [y Hy].
  unfold B64.add. cbn [B64.as_float]. rewrite Hy. unfold B64.ret.
  cbn [B64.min_with_int].
  destruct (B64.float_lt_int _ 100).
  - eexists _, _. split; [reflexivity|]. split; [reflexivity | by right].
  - eexists _, _. split; [reflexivity|].
    split; [by vm_compute | by left].
Qed.

End Binary64.

Section Binary64Engine.

Lemma mul_float (v : B64.number) (x w : B64.float) :
  B64.as_float v = B64.Done x ->
  B64.mul v (B64.PyFloat w) = B64.Done (B64.PyFloat (B64.fmul x w)).
Proof.
  intros Hv. unfold B64.mul.
  destruct v as [n|y]; cbn [B64.as_float] in *;
    [by rewrite Hv | by injection Hv as ->].
Qed.

Lemma weights_lookup :
  B64.WEIGHTS !! "documentation"%string
  = Some (B64.PyFloat (B64.nearest 30 100))
  /\ B64.WEIGHTS !! "technical_depth"%string
     = Some (B64.PyFloat (B64.nearest 40 100))
  /\ B64.WEIGHTS !! "activity"%string
     = Some (B64.PyFloat (B64.nearest 30 100)).
Proof.
  unfold B64.WEIGHTS. split; [|split].
  - by rewrite lookup_insert_eq.
  - rewrite lookup_insert_ne by done. by rewrite lookup_insert_eq.
  - rewrite !lookup_insert_ne by done. by rewrite lookup_singleton_eq.
Qed.

End Binary64Engine.

(** C2. On binary64 numbers, for every valid input, [total_score] is
    [round(0.30 * d + 0.40 * t + 0.30 * a, 2)], every operation being the
    one of the format, where [d], [t] and [a] are the unrounded results of
    the three sub-scorers: the weighted sum is taken over the unrounded
    values and rounded once, and the three sub-scores are rounded for the
    report only. *)
Theorem total_score_weighted_sum (G : Type)
    (profile_data : B64.ProfileData) (g : G) :
  B64.valid_profile profile_data = true ->
  let h := B64.fresh profile_data g in
  let w30 := B64.nearest 30 100 in
  let w40 := B64.nearest 40 100 in
  exists d t a fd ft fa r,
    B64._score_documentation h = (B64.Done d, h)
    /\ B64._score_technical_depth h = (B64.Done t, h)
    /\ B64._score_activity h = (B64.Done a, h)
    /\ B64.as_float d = B64.Done fd
    /\ B64.as_float t = B64.Done ft
    /\ B64.as_float a = B64.Done fa
    /\ B64.calculate_score h = (B64.Done r, h)
    /\ B64.total_score r
       = B64.PyFloat
           (B64.round_float
              (B64.fadd
                 (B64.fadd (B64.fmul w30 fd) (B64.fmul w40 ft))
                 (B64.fmul w30 fa)) 2)
    /\ B64.documentation_score r = B64.round d 2
    /\ B64.technical_depth_score r = B64.round t 2
    /\ B64.activity_score r = B64.round a 2.
Proof.
  intros Hv h w30 w40.
  destruct (score_documentation_run h) as (d & fd & Hd & Hfd & _).
  destruct (score_technical_depth_run h) as (ft & Ht).
  destruct (score_activity_run h) as (a & fa & Ha & Hfa & _).
  { unfold B64.valid_profile in Hv. cbv zeta in Hv.
    apply andb_true_iff in Hv as [Hv _].
    by apply andb_true_iff in Hv as [_ Hv]. }
  destruct weights_lookup as (Hw1 & Hw2 & Hw3).
  exists d, (B64.PyFloat ft), a, fd, ft, fa.
  unfold B64.calculate_score, B64.bind. rewrite Hd, Ht, Ha.
  unfold B64.self_WEIGHTS, B64.pure, B64.ret.
  change (default (B64.class_WEIGHTS h) (B64.instance_WEIGHTS h))
    with B64.WEIGHTS.
  rewrite Hw1, Hw2, Hw3. cbn [B64.subscript].
  rewrite (mul_float d fd _ Hfd), (mul_float (B64.PyFloat ft) ft _ eq_refl),
    (mul_float a fa _ Hfa).
  cbn [B64.add B64.as_float].
  eexists. do 6 (split; [done|]). split; [reflexivity|].
  cbn [B64.total_score B64.documentation_score B64.technical_depth_score
       B64.activity_score B64.round].
  split; [|done].
  by rewrite (fmul_comm w30 fd), (fmul_comm w40 ft), (fmul_comm w30 fa).
Qed.

Lemma total_score_weighted_sum_witness :
  exists r,
    B64.calculate_score (B64.fresh B64.tie_profile tt)
    = (B64.Done r, B64.fresh B64.tie_profile tt)
    /\ B64.total_score r = B64.PyFloat (B64.nearest 1357 100).
Proof.
  destruct (total_score_weighted_sum unit B64.tie_profile tt)
    as (d & t & a & fd & ft & fa & r & Hd & Ht & Ha & Hfd & Hft & Hfa
        & Hr & Htot & _); [reflexivity|].
  exists r. split; [exact Hr|]. rewrite Htot.
  vm_compute in Hd. injection Hd as <-.
  vm_compute in Ht. injection Ht as <-.
  vm_compute in Ha. injection Ha as <-.
  vm_compute in Hfd. injection Hfd as <-.
  vm_compute in Hft. injection Hft as <-.
  vm_compute in Hfa. injection Hfa as <-.
  vm_compute. reflexivity.
Defined.

(** On this input the weighted sum of the doubles 31.25, 3.0 and 10.0 is
    the double 13.574999999999999 and [calculate_score] reports 13.57,
    where the same sum in exact arithmetic is 13.575 and rounds to 13.58. *)
Example binary64_rounding :
  (exists r,
     B64.calculate_score (B64.fresh B64.tie_profile tt)
     = (B64.Done r, B64.fresh B64.tie_profile tt)
     /\ B64.total_score r = B64.PyFloat (B64.nearest 1357 100)
     /\ B64.documentation_score r = B64.PyFloat (B64.nearest 3125 100)
     /\ B64.technical_depth_score r = B64.PyFloat (B64.nearest 3 1)
     /\ B64.activity_score r = B64.PyFloat (B64.nearest 10 1))
  /\ (round (31.25 * 0.30 + 3 * 0.40 + 10 * 0.30) 2 == 13.58)%Q.
Proof.
  split; [|reflexivity].
  eexists. split; [vm_compute; reflexivity|]. by vm_compute.
Qed.

(** With [consistency_score] 0.75 and no commits the activity score is the
    double 10.525 and is reported as 10.53; in exact arithmetic 10.525 is a
    tie and rounds to 10.52. *)
Example binary64_activity_rounding :
  (exists r,
     B64.calculate_score (B64.fresh B64.three_quarters_profile tt)
     = (B64.Done r, B64.fresh B64.three_quarters_profile tt)
     /\ B64.activity_score r = B64.PyFloat (B64.nearest 1053 100)
     /\ B64.documentation_score r = B64.PyInt 0
     /\ B64.total_score r = B64.PyFloat (B64.nearest 316 100))
  /\ (round (0.75 * 0.7 + 10) 2 == 10.52)%Q.
Proof.
  split; [|reflexivity].
  eexists. split; [vm_compute; reflexivity|]. by vm_compute.
Qed.

(** Rounding the operands first is a different function: on this input
    [calculate_score] reports 12.72, the sub-scores it reports are 28.33,
    3.0 and 10.05, and their weighted sum rounds to 12.71. *)
Example rounding_not_compounded :
  exists r d t a,
    B64.calculate_score (B64.fresh B64.thirds_profile tt)
    = (B64.Done r, B64.fresh B64.thirds_profile tt)
    /\ B64.total_score r = B64.PyFloat (B64.nearest 1272 100)
    /\ B64.documentation_score r = B64.PyFloat d
    /\ B64.technical_depth_score r = B64.PyFloat t
    /\ B64.activity_score r = B64.PyFloat a
    /\ B64.round_float
         (B64.fadd
            (B64.fadd (B64.fmul d (B64.nearest 30 100))
                      (B64.fmul t (B64.nearest 40 100)))
            (B64.fmul a (B64.nearest 30 100))) 2
       = B64.nearest 1271 100.
Proof.
  eexists _, (B64.nearest 2833 100), (B64.nearest 3 1),
    (B64.nearest 1005 100).
  split; [vm_compute; reflexivity|]. by vm_compute.
Qed.

(** C8. [calculate_score] leaves every object it can reach as it found it
    (the class attribute [WEIGHTS], the instance's attributes, the profile
    and all other state), so two invocations on the same [profile_data]
    produce identical outputs, raised exceptions included; and its output
    is the same in every heap in which [self.WEIGHTS] and [profile_data]
    hold the same values: it reads no other state. *)
Theorem calculate_score_deterministic (G : Type) (h : B64.Heap G) :
  let '(out1, h1) := B64.calculate_score h in
  let '(out2, h2) := B64.calculate_score h1 in
  out1 = out2 /\ h1 = h /\ h2 = h
  /\ forall h' : B64.Heap G,
       B64.footprint h' = B64.footprint h ->
       fst (B64.calculate_score h') = out1.
Proof.
  destruct (readonly_calculate_score (G := G) h) as [Hsnd Hfst].
  destruct (B64.calculate_score h) as [out1 h1] eqn:E1.
  cbn [fst snd] in *. subst h1. rewrite E1. done.
Qed.
